(** * node-sdl [src/helpers.cc]: the pointer-marshaling layer

    A shallow embedding of [helpers.cc]: the helpers that box a borrowed
    native pointer (SDL_Surface, SDL_Rect, SDL_PixelFormat, SDL_Joystick,
    TTF_Font) into a script-visible object, unbox it again, project struct
    fields through property accessors, and format the native library's last
    error as an exception.

    The C++ code is stateful: it allocates host objects and object
    templates, keeps one static [Persistent<ObjectTemplate>] per struct
    type, and dereferences native memory it does not own.  All of this is
    threaded through an explicit [State] by a small state-and-fault monad
    [M]; a fault stands for undefined behaviour of the C++ code (a read
    through an invalid pointer, an unchecked cast of a value that is not an
    [External], an out-of-range internal field). *)

From stdpp Require Import gmap strings list.

Local Open Scope string_scope.
Local Open Scope Z_scope.
Local Open Scope list_scope.

(** ** Native side: pointers, structs and memory *)

(** A native pointer.  [Alloc a] is the address of a whole object allocated
    by the native library, [ClipRectOf p] is [&((SDL_Surface* )p)->clip_rect],
    the address of the rectangle embedded in the surface at [p].  All pointer
    types ([SDL_Surface*], [SDL_Rect*], [void*], ...) share this
    representation, so [static_cast] between them is the identity. *)
Inductive ptr : Type :=
  | NULL
  | Alloc (a : positive)
  | ClipRectOf (base : ptr).

#[global] Instance ptr_eq_dec : EqDecision ptr.
Proof. solve_decision. Defined.

(** [SDL_Rect]: [Sint16 x, y; Uint16 w, h]. *)
Record SDL_Rect : Type := mkRect {
  rect_x : Z;
  rect_y : Z;
  rect_w : Z;
  rect_h : Z
}.

(** [SDL_PixelFormat], the fields this layer reads:
    [Uint8 BitsPerPixel; Uint8 BytesPerPixel; Uint32 colorkey; Uint8 alpha]. *)
Record SDL_PixelFormat : Type := mkPixelFormat {
  BitsPerPixel : Z;
  BytesPerPixel : Z;
  colorkey : Z;
  alpha : Z
}.

(** [SDL_Surface], the fields this layer reads:
    [Uint32 flags; SDL_PixelFormat *format; int w, h; Uint16 pitch;
     SDL_Rect clip_rect] (the rectangle is embedded, not pointed to). *)
Record SDL_Surface : Type := mkSurface {
  flags : Z;
  format : ptr;
  surf_w : Z;
  surf_h : Z;
  pitch : Z;
  clip_rect : SDL_Rect
}.

(** What the native library keeps at an allocated address.  [SDL_Joystick]
    and [TTF_Font] are opaque to this file. *)
Inductive NativeObject : Type :=
  | SurfaceObj (s : SDL_Surface)
  | RectObj (r : SDL_Rect)
  | FormatObj (f : SDL_PixelFormat)
  | OpaqueObj.

(** Reading [*p] at each struct type; [None] is an invalid read. *)
Definition deref_surface (m : gmap positive NativeObject) (p : ptr)
  : option SDL_Surface :=
  match p with
  | Alloc a => match m !! a with Some (SurfaceObj s) => Some s | _ => None end
  | _ => None
  end.

Definition deref_format (m : gmap positive NativeObject) (p : ptr)
  : option SDL_PixelFormat :=
  match p with
  | Alloc a => match m !! a with Some (FormatObj f) => Some f | _ => None end
  | _ => None
  end.

Definition deref_rect (m : gmap positive NativeObject) (p : ptr)
  : option SDL_Rect :=
  match p with
  | Alloc a => match m !! a with Some (RectObj r) => Some r | _ => None end
  | ClipRectOf q => clip_rect <$> deref_surface m q
  | NULL => None
  end.

(** ** Host side: values, templates and objects *)

(** The accessor callbacks of this file, as the function pointers that
    [SetAccessor] stores in a template. *)
Inductive AccessorGetter : Type :=
  | fn_GetSurfaceFlags | fn_GetSurfaceFormat | fn_GetSurfaceWidth
  | fn_GetSurfaceHeight | fn_GetSurfacePitch | fn_GetSurfaceRect
  | fn_GetRectX | fn_GetRectY | fn_GetRectW | fn_GetRectH
  | fn_GetFormatBits | fn_GetFormatBytes | fn_GetFormatColorkey
  | fn_GetFormatAlpha.

#[global] Instance AccessorGetter_eq_dec : EqDecision AccessorGetter.
Proof. solve_decision. Defined.

(** A host value.  [VNumber] carries the integer that [Number::New] was
    given: every integer field read here is at most 32 bits wide, so its
    conversion to a double is exact.  [VObject h] is a handle to the heap
    object at index [h].

    A host string is kept as the C strings it was made from, in order:
    [String::New] decodes its argument as UTF-8 (bytes that are not valid
    UTF-8 do not survive as they are), and [String::Concat] puts the
    characters of two host strings one after the other.  So
    [VString [a; b]] is the host string whose characters are those of
    [String::New(a)] followed by those of [String::New(b)]; what the
    characters are is left to the host's decoder (see [host_chars]).

    [VOrdinary obj name] is what the host's ordinary property lookup (own
    properties, then the prototype chain) finds for [name] on [obj]: the
    result of a read that no accessor of this file handles.  Nothing in
    this file determines it. *)
Inductive Value : Type :=
  | Undefined
  | VNumber (n : Z)
  | VString (pieces : list string)
  | VExternal (p : ptr)
  | VObject (h : nat)
  | VOrdinary (obj : nat) (name : string).

#[global] Instance Value_eq_dec : EqDecision Value.
Proof. solve_decision. Defined.

(** [ObjectTemplate]: the internal field count and the accessor table, the
    most recent [SetAccessor] first. *)
Record ObjectTemplate : Type := mkTemplate {
  internal_field_count : nat;
  accessors : list (string * AccessorGetter)
}.

(** A heap object: an instance of a template with its internal fields, or
    an [Error] object with its message. *)
Inductive HeapObject : Type :=
  | JSInstance (templ : nat) (fields : list Value)
  | JSError (message : list string).

(** ** Program state *)

Record State : Type := mkState {
  native : gmap positive NativeObject;   (* memory owned by SDL *)
  sdl_error : string;                    (* what SDL_GetError() returns *)
  objects : list HeapObject;             (* host object heap *)
  templates : list ObjectTemplate;       (* host template heap *)
  surface_template_ : option nat;        (* the five file-level statics *)
  rect_template_ : option nat;
  pixelformat_template_ : option nat;
  joystick_template_ : option nat;
  font_template_ : option nat;
  pending_exception : option Value       (* set by ThrowException *)
}.

Definition set_objects (o : list HeapObject) (s : State) : State :=
  mkState (native s) (sdl_error s) o (templates s)
    (surface_template_ s) (rect_template_ s) (pixelformat_template_ s)
    (joystick_template_ s) (font_template_ s) (pending_exception s).

Definition set_templates (t : list ObjectTemplate) (s : State) : State :=
  mkState (native s) (sdl_error s) (objects s) t
    (surface_template_ s) (rect_template_ s) (pixelformat_template_ s)
    (joystick_template_ s) (font_template_ s) (pending_exception s).

Definition set_surface_template_ (t : option nat) (s : State) : State :=
  mkState (native s) (sdl_error s) (objects s) (templates s)
    t (rect_template_ s) (pixelformat_template_ s)
    (joystick_template_ s) (font_template_ s) (pending_exception s).

Definition set_rect_template_ (t : option nat) (s : State) : State :=
  mkState (native s) (sdl_error s) (objects s) (templates s)
    (surface_template_ s) t (pixelformat_template_ s)
    (joystick_template_ s) (font_template_ s) (pending_exception s).

Definition set_pixelformat_template_ (t : option nat) (s : State) : State :=
  mkState (native s) (sdl_error s) (objects s) (templates s)
    (surface_template_ s) (rect_template_ s) t
    (joystick_template_ s) (font_template_ s) (pending_exception s).

Definition set_joystick_template_ (t : option nat) (s : State) : State :=
  mkState (native s) (sdl_error s) (objects s) (templates s)
    (surface_template_ s) (rect_template_ s) (pixelformat_template_ s)
    t (font_template_ s) (pending_exception s).

Definition set_font_template_ (t : option nat) (s : State) : State :=
  mkState (native s) (sdl_error s) (objects s) (templates s)
    (surface_template_ s) (rect_template_ s) (pixelformat_template_ s)
    (joystick_template_ s) t (pending_exception s).

Definition set_pending_exception (e : option Value) (s : State) : State :=
  mkState (native s) (sdl_error s) (objects s) (templates s)
    (surface_template_ s) (rect_template_ s) (pixelformat_template_ s)
    (joystick_template_ s) (font_template_ s) e.

Definition set_native (m : gmap positive NativeObject) (s : State) : State :=
  mkState m (sdl_error s) (objects s) (templates s)
    (surface_template_ s) (rect_template_ s) (pixelformat_template_ s)
    (joystick_template_ s) (font_template_ s) (pending_exception s).

Definition set_sdl_error (e : string) (s : State) : State :=
  mkState (native s) e (objects s) (templates s)
    (surface_template_ s) (rect_template_ s) (pixelformat_template_ s)
    (joystick_template_ s) (font_template_ s) (pending_exception s).

(** The state of a fresh process: empty host heaps, empty statics, no
    pending exception; the native side is whatever SDL has set up. *)
Definition initial_state (m : gmap positive NativeObject) (e : string)
  : State :=
  mkState m e [] [] None None None None None None.

(** ** The state-and-fault monad *)

Inductive outcome (A : Type) : Type :=
  | Ok (a : A)
  | Fault.
Arguments Ok {A} a.
Arguments Fault {A}.

Definition M (A : Type) : Type := State -> outcome A * State.

Definition ret {A} (a : A) : M A := fun s => (Ok a, s).

Definition bind {A B} (m : M A) (k : A -> M B) : M B :=
  fun s => match m s with
           | (Ok a, s') => k a s'
           | (Fault, s') => (Fault, s')
           end.

Definition fault {A} : M A := fun s => (Fault, s).
Definition get_state : M State := fun s => (Ok s, s).
Definition modify (f : State -> State) : M unit := fun s => (Ok tt, f s).

Notation "x <- m ;; k" := (bind m (fun x => k))
  (at level 100, m at next level, right associativity).
Notation "m ;;; k" := (bind m (fun _ => k))
  (at level 100, right associativity).

Definition lift_option {A} (o : option A) : M A :=
  match o with Some a => ret a | None => fault end.

(** ** The host API used by [helpers.cc]

    Handle scopes ([HandleScope], [scope.Close]) only manage the lifetime of
    local handles; this model has no garbage collector, so [Close] is the
    identity and is left out. *)

(** [ObjectTemplate::New()]: a fresh template without fields or accessors. *)
Definition ObjectTemplate_New : M nat :=
  s <- get_state;;
  modify (set_templates (templates s ++ [mkTemplate 0 []]));;;
  ret (length (templates s)).

(** [t->SetInternalFieldCount(n)]. *)
Definition SetInternalFieldCount (t : nat) (n : nat) : M unit :=
  s <- get_state;;
  tm <- lift_option (templates s !! t);;
  modify (set_templates (<[t := mkTemplate n (accessors tm)]> (templates s))).

(** [t->SetAccessor(String::NewSymbol(name), getter)]. *)
Definition SetAccessor (t : nat) (name : string) (getter : AccessorGetter)
  : M unit :=
  s <- get_state;;
  tm <- lift_option (templates s !! t);;
  modify (set_templates
            (<[t := mkTemplate (internal_field_count tm)
                               ((name, getter) :: accessors tm)]>
               (templates s))).

(** [t->NewInstance()]: a fresh object with the template's internal fields,
    all undefined. *)
Definition NewInstance (t : nat) : M nat :=
  s <- get_state;;
  tm <- lift_option (templates s !! t);;
  modify (set_objects
            (objects s ++
               [JSInstance t (replicate (internal_field_count tm) Undefined)]));;;
  ret (length (objects s)).

(** [External::New(p)] and [e->Value()]. *)
Definition External_New (p : ptr) : M Value := ret (VExternal p).

Definition External_Value (v : Value) : M ptr :=
  match v with
  | VExternal p => ret p
  | _ => fault
  end.

(** [obj->SetInternalField(i, v)] and [obj->GetInternalField(i)]. *)
Definition SetInternalField (obj : nat) (i : nat) (v : Value) : M unit :=
  s <- get_state;;
  o <- lift_option (objects s !! obj);;
  match o with
  | JSInstance t fs =>
      if decide (i < length fs)%nat
      then modify (set_objects (<[obj := JSInstance t (<[i := v]> fs)]> (objects s)))
      else fault
  | JSError _ => fault
  end.

Definition GetInternalField (obj : nat) (i : nat) : M Value :=
  s <- get_state;;
  o <- lift_option (objects s !! obj);;
  match o with
  | JSInstance _ fs => lift_option (fs !! i)
  | JSError _ => fault
  end.

(** [String::New(cstr)]: the host string decoded from the C string [cstr]
    (the Rocq string stands for the bytes before the terminator). *)
Definition String_New (cstr : string) : M Value := ret (VString [cstr]).

(** [String::Concat(a, b)]. *)
Definition String_Concat (a b : Value) : M Value :=
  match a, b with
  | VString x, VString y => ret (VString (x ++ y))
  | _, _ => fault
  end.

(** [Exception::Error(msg)]: a fresh [Error] object with that message. *)
Definition Exception_Error (msg : Value) : M Value :=
  match msg with
  | VString m =>
      s <- get_state;;
      modify (set_objects (objects s ++ [JSError m]));;;
      ret (VObject (length (objects s)))
  | _ => fault
  end.

(** [ThrowException(v)]: schedules [v] and returns undefined. *)
Definition ThrowException (v : Value) : M Value :=
  modify (set_pending_exception (Some v));;;
  ret Undefined.

(** [SDL_GetError()]. *)
Definition SDL_GetError : M string :=
  s <- get_state;;
  ret (sdl_error s).

(** Reads of native memory through a pointer. *)
Definition read_surface (p : ptr) : M SDL_Surface :=
  s <- get_state;;
  lift_option (deref_surface (native s) p).

Definition read_rect (p : ptr) : M SDL_Rect :=
  s <- get_state;;
  lift_option (deref_rect (native s) p).

Definition read_format (p : ptr) : M SDL_PixelFormat :=
  s <- get_state;;
  lift_option (deref_format (native s) p).

(** [Number::New(x)]. *)
Definition Number_New (x : Z) : M Value := ret (VNumber x).

(** [const AccessorInfo& info], of which only [info.Holder()] is used. *)
Record AccessorInfo : Type := mkInfo { Holder : nat }.

(** ** [helpers.cc]

    The definitions follow the source function by function.  The source
    declares every function in [helpers.h], so it can define the Surface
    accessors before [WrapPixelFormat] and [WrapRect]; here the callees come
    first. *)

(** *** Error formatting *)

Definition MakeSDLException (name : string) : M Value :=
  a <- String_New name;;
  b <- String_New ": ";;
  ab <- String_Concat a b;;
  e <- SDL_GetError;;
  c <- String_New e;;
  msg <- String_Concat ab c;;
  Exception_Error msg.

Definition ThrowSDLException (name : string) : M Value :=
  e <- MakeSDLException name;;
  ThrowException e.

(** *** Rect *)

Definition UnwrapRect (obj : nat) : M ptr :=
  field <- GetInternalField obj 0;;
  p <- External_Value field;;
  ret p.

Definition GetRectX (name : string) (info : AccessorInfo) : M Value :=
  rect <- UnwrapRect (Holder info);;
  r <- read_rect rect;;
  Number_New (rect_x r).

Definition GetRectY (name : string) (info : AccessorInfo) : M Value :=
  rect <- UnwrapRect (Holder info);;
  r <- read_rect rect;;
  Number_New (rect_y r).

Definition GetRectW (name : string) (info : AccessorInfo) : M Value :=
  rect <- UnwrapRect (Holder info);;
  r <- read_rect rect;;
  Number_New (rect_w r).

Definition GetRectH (name : string) (info : AccessorInfo) : M Value :=
  rect <- UnwrapRect (Holder info);;
  r <- read_rect rect;;
  Number_New (rect_h r).

Definition MakeRectTemplate : M nat :=
  result <- ObjectTemplate_New;;
  SetInternalFieldCount result 1;;;
  SetAccessor result "x" fn_GetRectX;;;
  SetAccessor result "y" fn_GetRectY;;;
  SetAccessor result "w" fn_GetRectW;;;
  SetAccessor result "h" fn_GetRectH;;;
  ret result.

Definition WrapRect (rect : ptr) : M nat :=
  s <- get_state;;
  (if decide (rect_template_ s = None)
   then raw_template <- MakeRectTemplate;;
        modify (set_rect_template_ (Some raw_template))
   else ret tt);;;
  s' <- get_state;;
  templ <- lift_option (rect_template_ s');;
  result <- NewInstance templ;;
  request_ptr <- External_New rect;;
  SetInternalField result 0 request_ptr;;;
  ret result.

(** *** PixelFormat *)

Definition UnwrapPixelFormat (obj : nat) : M ptr :=
  field <- GetInternalField obj 0;;
  p <- External_Value field;;
  ret p.

Definition GetFormatBits (name : string) (info : AccessorInfo) : M Value :=
  format <- UnwrapPixelFormat (Holder info);;
  f <- read_format format;;
  Number_New (BitsPerPixel f).

Definition GetFormatBytes (name : string) (info : AccessorInfo) : M Value :=
  format <- UnwrapPixelFormat (Holder info);;
  f <- read_format format;;
  Number_New (BytesPerPixel f).

Definition GetFormatColorkey (name : string) (info : AccessorInfo)
  : M Value :=
  format <- UnwrapPixelFormat (Holder info);;
  f <- read_format format;;
  Number_New (colorkey f).

Definition GetFormatAlpha (name : string) (info : AccessorInfo) : M Value :=
  format <- UnwrapPixelFormat (Holder info);;
  f <- read_format format;;
  Number_New (alpha f).

Definition MakePixelFormatTemplate : M nat :=
  result <- ObjectTemplate_New;;
  SetInternalFieldCount result 1;;;
  SetAccessor result "bitsPerPixel" fn_GetFormatBits;;;
  SetAccessor result "bytesPerPixel" fn_GetFormatBytes;;;
  SetAccessor result "colorkey" fn_GetFormatColorkey;;;
  SetAccessor result "alpha" fn_GetFormatAlpha;;;
  ret result.

Definition WrapPixelFormat (pixelformat : ptr) : M nat :=
  s <- get_state;;
  (if decide (pixelformat_template_ s = None)
   then raw_template <- MakePixelFormatTemplate;;
        modify (set_pixelformat_template_ (Some raw_template))
   else ret tt);;;
  s' <- get_state;;
  templ <- lift_option (pixelformat_template_ s');;
  result <- NewInstance templ;;
  request_ptr <- External_New pixelformat;;
  SetInternalField result 0 request_ptr;;;
  ret result.

(** *** Surface *)

Definition UnwrapSurface (obj : nat) : M ptr :=
  field <- GetInternalField obj 0;;
  p <- External_Value field;;
  ret p.

Definition GetSurfaceFlags (name : string) (info : AccessorInfo) : M Value :=
  surface <- UnwrapSurface (Holder info);;
  sf <- read_surface surface;;
  Number_New (flags sf).

Definition GetSurfaceFormat (name : string) (info : AccessorInfo)
  : M Value :=
  surface <- UnwrapSurface (Holder info);;
  sf <- read_surface surface;;
  w <- WrapPixelFormat (format sf);;
  ret (VObject w).

Definition GetSurfaceWidth (name : string) (info : AccessorInfo) : M Value :=
  surface <- UnwrapSurface (Holder info);;
  sf <- read_surface surface;;
  Number_New (surf_w sf).

Definition GetSurfaceHeight (name : string) (info : AccessorInfo)
  : M Value :=
  surface <- UnwrapSurface (Holder info);;
  sf <- read_surface surface;;
  Number_New (surf_h sf).

Definition GetSurfacePitch (name : string) (info : AccessorInfo) : M Value :=
  surface <- UnwrapSurface (Holder info);;
  sf <- read_surface surface;;
  Number_New (pitch sf).

(** [&surface->clip_rect] is address arithmetic: nothing is read. *)
Definition GetSurfaceRect (name : string) (info : AccessorInfo) : M Value :=
  surface <- UnwrapSurface (Holder info);;
  w <- WrapRect (ClipRectOf surface);;
  ret (VObject w).

Definition MakeSurfaceTemplate : M nat :=
  result <- ObjectTemplate_New;;
  SetInternalFieldCount result 1;;;
  SetAccessor result "flags" fn_GetSurfaceFlags;;;
  SetAccessor result "format" fn_GetSurfaceFormat;;;
  SetAccessor result "w" fn_GetSurfaceWidth;;;
  SetAccessor result "h" fn_GetSurfaceHeight;;;
  SetAccessor result "pitch" fn_GetSurfacePitch;;;
  SetAccessor result "clip_rect" fn_GetSurfaceRect;;;
  ret result.

Definition WrapSurface (surface : ptr) : M nat :=
  s <- get_state;;
  (if decide (surface_template_ s = None)
   then raw_template <- MakeSurfaceTemplate;;
        modify (set_surface_template_ (Some raw_template))
   else ret tt);;;
  s' <- get_state;;
  templ <- lift_option (surface_template_ s');;
  result <- NewInstance templ;;
  request_ptr <- External_New surface;;
  SetInternalField result 0 request_ptr;;;
  ret result.

(** *** Joystick (every accessor is commented out in the source) *)

Definition MakeJoystickTemplate : M nat :=
  result <- ObjectTemplate_New;;
  SetInternalFieldCount result 1;;;
  ret result.

Definition WrapJoystick (joystick : ptr) : M nat :=
  s <- get_state;;
  (if decide (joystick_template_ s = None)
   then raw_template <- MakeJoystickTemplate;;
        modify (set_joystick_template_ (Some raw_template))
   else ret tt);;;
  s' <- get_state;;
  templ <- lift_option (joystick_template_ s');;
  result <- NewInstance templ;;
  request_ptr <- External_New joystick;;
  SetInternalField result 0 request_ptr;;;
  ret result.

Definition UnwrapJoystick (obj : nat) : M ptr :=
  field <- GetInternalField obj 0;;
  p <- External_Value field;;
  ret p.

(** *** Font (every accessor is commented out in the source) *)

Definition MakeFontTemplate : M nat :=
  result <- ObjectTemplate_New;;
  SetInternalFieldCount result 1;;;
  ret result.

Definition WrapFont (font : ptr) : M nat :=
  s <- get_state;;
  (if decide (font_template_ s = None)
   then raw_template <- MakeFontTemplate;;
        modify (set_font_template_ (Some raw_template))
   else ret tt);;;
  s' <- get_state;;
  templ <- lift_option (font_template_ s');;
  result <- NewInstance templ;;
  request_ptr <- External_New font;;
  SetInternalField result 0 request_ptr;;;
  ret result.

Definition UnwrapFont (obj : nat) : M ptr :=
  field <- GetInternalField obj 0;;
  p <- External_Value field;;
  ret p.

(** ** Reading a property of a wrapper from script

    The host looks the name up in the accessor table of the object's
    template and calls the registered callback with the object as holder.
    A name without an accessor is left to the host's ordinary property
    lookup, in which no code of this file runs: the read returns
    [VOrdinary obj name] and nothing of the state kept here changes.  Of
    the ordinary properties only the [message] that [Exception::Error]
    gives an [Error] object is known here. *)

Definition call_getter (g : AccessorGetter) : string -> AccessorInfo -> M Value :=
  match g with
  | fn_GetSurfaceFlags => GetSurfaceFlags
  | fn_GetSurfaceFormat => GetSurfaceFormat
  | fn_GetSurfaceWidth => GetSurfaceWidth
  | fn_GetSurfaceHeight => GetSurfaceHeight
  | fn_GetSurfacePitch => GetSurfacePitch
  | fn_GetSurfaceRect => GetSurfaceRect
  | fn_GetRectX => GetRectX
  | fn_GetRectY => GetRectY
  | fn_GetRectW => GetRectW
  | fn_GetRectH => GetRectH
  | fn_GetFormatBits => GetFormatBits
  | fn_GetFormatBytes => GetFormatBytes
  | fn_GetFormatColorkey => GetFormatColorkey
  | fn_GetFormatAlpha => GetFormatAlpha
  end.

Fixpoint find_accessor (name : string) (l : list (string * AccessorGetter))
  : option AccessorGetter :=
  match l with
  | [] => None
  | (n, g) :: l' => if decide (n = name) then Some g else find_accessor name l'
  end.

Definition GetProperty (obj : nat) (name : string) : M Value :=
  s <- get_state;;
  o <- lift_option (objects s !! obj);;
  match o with
  | JSInstance t _ =>
      tm <- lift_option (templates s !! t);;
      match find_accessor name (accessors tm) with
      | Some g => call_getter g name (mkInfo obj)
      | None => ret (VOrdinary obj name)
      end
  | JSError m =>
      if decide (name = "message") then ret (VString m)
      else ret (VOrdinary obj name)
  end.

(** ** The five wrapper kinds, uniformly *)

Inductive Kind : Type := KSurface | KRect | KPixelFormat | KJoystick | KFont.

#[global] Instance Kind_eq_dec : EqDecision Kind.
Proof. solve_decision. Defined.

Definition Wrap (k : Kind) : ptr -> M nat :=
  match k with
  | KSurface => WrapSurface
  | KRect => WrapRect
  | KPixelFormat => WrapPixelFormat
  | KJoystick => WrapJoystick
  | KFont => WrapFont
  end.

Definition Unwrap (k : Kind) : nat -> M ptr :=
  match k with
  | KSurface => UnwrapSurface
  | KRect => UnwrapRect
  | KPixelFormat => UnwrapPixelFormat
  | KJoystick => UnwrapJoystick
  | KFont => UnwrapFont
  end.

Definition MakeTemplate (k : Kind) : M nat :=
  match k with
  | KSurface => MakeSurfaceTemplate
  | KRect => MakeRectTemplate
  | KPixelFormat => MakePixelFormatTemplate
  | KJoystick => MakeJoystickTemplate
  | KFont => MakeFontTemplate
  end.

(** The static that caches the template of a kind. *)
Definition cached_template (k : Kind) (s : State) : option nat :=
  match k with
  | KSurface => surface_template_ s
  | KRect => rect_template_ s
  | KPixelFormat => pixelformat_template_ s
  | KJoystick => joystick_template_ s
  | KFont => font_template_ s
  end.

(** ** Runs: calls into this layer interleaved with the native library *)

(** A call into this layer. *)
Inductive Op : Type :=
  | OpWrap (k : Kind) (p : ptr)
  | OpUnwrap (k : Kind) (obj : nat)
  | OpGetProperty (obj : nat) (name : string)
  | OpAccessor (g : AccessorGetter) (name : string) (holder : nat)
  | OpMakeSDLException (name : string)
  | OpThrowSDLException (name : string).

Definition exec_op (o : Op) : M Value :=
  match o with
  | OpWrap k p => h <- Wrap k p;; ret (VObject h)
  | OpUnwrap k obj => p <- Unwrap k obj;; ret (VExternal p)
  | OpGetProperty obj name => GetProperty obj name
  | OpAccessor g name holder => call_getter g name (mkInfo holder)
  | OpMakeSDLException name => MakeSDLException name
  | OpThrowSDLException name => ThrowSDLException name
  end.

Fixpoint exec_ops (os : list Op) : M (list Value) :=
  match os with
  | [] => ret []
  | o :: os' => v <- exec_op o;; vs <- exec_ops os';; ret (v :: vs)
  end.

(** What happens in a process: a call into this layer, or the native
    library acting on its own memory (storing into it, releasing it,
    recording an error). *)
Inductive Event : Type :=
  | Call (o : Op)
  | NativeStore (a : positive) (v : NativeObject)
  | NativeFree (a : positive)
  | NativeSetError (e : string).

Definition exec_event (e : Event) : M Value :=
  match e with
  | Call o => exec_op o
  | NativeStore a v =>
      s <- get_state;;
      modify (set_native (<[a := v]> (native s)));;;
      ret Undefined
  | NativeFree a =>
      s <- get_state;;
      modify (set_native (delete a (native s)));;;
      ret Undefined
  | NativeSetError e =>
      modify (set_sdl_error e);;;
      ret Undefined
  end.

(** A run stops at the first fault. *)
Fixpoint run (es : list Event) : M (list Value) :=
  match es with
  | [] => ret []
  | e :: es' => v <- exec_event e;; vs <- run es';; ret (v :: vs)
  end.

(** The state a run ends in. *)
Definition state_after (es : list Event) (s : State) : State :=
  snd (run es s).

(** * Definitions used by the statements

    The templates the source builds, well-formedness of the statics, the
    state a wrap leaves behind, wrappers, and the invariants of runs. *)

(** The templates the five [Make...Template] functions build (shown to be
    what they build in [MakeTemplate_eq]). *)
Definition template_of (k : Kind) : ObjectTemplate :=
  match k with
  | KSurface =>
      mkTemplate 1
        [("clip_rect", fn_GetSurfaceRect); ("pitch", fn_GetSurfacePitch);
         ("h", fn_GetSurfaceHeight); ("w", fn_GetSurfaceWidth);
         ("format", fn_GetSurfaceFormat); ("flags", fn_GetSurfaceFlags)]
  | KRect =>
      mkTemplate 1
        [("h", fn_GetRectH); ("w", fn_GetRectW);
         ("y", fn_GetRectY); ("x", fn_GetRectX)]
  | KPixelFormat =>
      mkTemplate 1
        [("alpha", fn_GetFormatAlpha); ("colorkey", fn_GetFormatColorkey);
         ("bytesPerPixel", fn_GetFormatBytes);
         ("bitsPerPixel", fn_GetFormatBits)]
  | KJoystick => mkTemplate 1 []
  | KFont => mkTemplate 1 []
  end.

Definition set_cached_template (k : Kind) (t : option nat) : State -> State :=
  match k with
  | KSurface => set_surface_template_ t
  | KRect => set_rect_template_ t
  | KPixelFormat => set_pixelformat_template_ t
  | KJoystick => set_joystick_template_ t
  | KFont => set_font_template_ t
  end.

(** A state is well formed when every initialised static refers to the
    template its [Make...Template] builds. *)
Definition cache_ok (k : Kind) (s : State) : Prop :=
  match cached_template k s with
  | Some t => templates s !! t = Some (template_of k)
  | None => True
  end.

Definition wf (s : State) : Prop := forall k, cache_ok k s.

(** The state [Wrap k p] leaves behind, written out: the template is built
    and cached if the static is empty, then one object is allocated. *)
Definition ensure_template (k : Kind) (s : State) : State :=
  match cached_template k s with
  | Some _ => s
  | None =>
      set_cached_template k (Some (length (templates s)))
        (set_templates (templates s ++ [template_of k]) s)
  end.

Definition wrap_post (k : Kind) (p : ptr) (s : State) : State :=
  let s1 := ensure_template k s in
  set_objects
    (objects s1 ++ [JSInstance (default 0%nat (cached_template k s1))
                               [VExternal p]]) s1.

(** The pointer a wrapper holds in its internal field 0. *)
Definition stored_pointer (s : State) (obj : nat) : option ptr :=
  match objects s !! obj with
  | Some (JSInstance _ (VExternal p :: _)) => Some p
  | _ => None
  end.

(** The state changes a call into this layer can make. *)
Inductive layer_step (s : State) : State -> Prop :=
  | step_none : layer_step s s
  | step_wrap (k : Kind) (p : ptr) : layer_step s (wrap_post k p s)
  | step_error (msg : list string) :
      layer_step s (set_objects (objects s ++ [JSError msg]) s)
  | step_throw (msg : list string) :
      layer_step s
        (set_pending_exception (Some (VObject (length (objects s))))
           (set_objects (objects s ++ [JSError msg]) s)).

(** What the scalar accessors compute: the holder's stored pointer is
    dereferenced at the struct type and one field is projected. *)
Definition project_surface (f : SDL_Surface -> Z) (s : State) (obj : nat)
  : outcome Value :=
  match stored_pointer s obj with
  | Some p => match deref_surface (native s) p with
              | Some sf => Ok (VNumber (f sf))
              | None => Fault
              end
  | None => Fault
  end.

Definition project_rect (f : SDL_Rect -> Z) (s : State) (obj : nat)
  : outcome Value :=
  match stored_pointer s obj with
  | Some p => match deref_rect (native s) p with
              | Some r => Ok (VNumber (f r))
              | None => Fault
              end
  | None => Fault
  end.

Definition project_format (f : SDL_PixelFormat -> Z) (s : State) (obj : nat)
  : outcome Value :=
  match stored_pointer s obj with
  | Some p => match deref_format (native s) p with
              | Some fm => Ok (VNumber (f fm))
              | None => Fault
              end
  | None => Fault
  end.

(** [extends s s']: the host heaps only grow and an initialised static
    keeps its template. *)
Definition extends (s s' : State) : Prop :=
  (forall h o, objects s !! h = Some o -> objects s' !! h = Some o) /\
  (forall t tm, templates s !! t = Some tm -> templates s' !! t = Some tm) /\
  (forall k t, cached_template k s = Some t -> cached_template k s' = Some t).

(** [is_wrapper k s h p]: the object at [h] is an instance of the template
    of kind [k] and holds [p] as its single internal field. *)
Definition is_wrapper (k : Kind) (s : State) (h : nat) (p : ptr) : Prop :=
  exists t, objects s !! h = Some (JSInstance t [VExternal p]) /\
            templates s !! t = Some (template_of k).

(** An example process for the statements below: a surface at address 1
    whose format is at address 2, and a free-standing rectangle at 3. *)
Definition example_memory : gmap positive NativeObject :=
  <[1%positive := SurfaceObj (mkSurface 7 (Alloc 2) 640 480 1280
                                (mkRect 0 0 640 480))]>
    (<[2%positive := FormatObj (mkPixelFormat 32 4 0 255)]>
       (<[3%positive := RectObj (mkRect 10 20 30 40)]> ∅)).

Definition example_state : State := initial_state example_memory "no error".

(** The native library resizes the surface, changes the format and moves
    the rectangle. *)
Definition example_events : list Event :=
  [ NativeStore 1 (SurfaceObj (mkSurface 9 (Alloc 2) 800 600 1600
                                 (mkRect 0 0 800 600)));
    NativeStore 2 (FormatObj (mkPixelFormat 16 2 5 128));
    NativeStore 3 (RectObj (mkRect 11 21 31 41)) ].

(** [cache_inv s]: the template heap holds exactly one template for each
    kind of a duplicate-free list [ks], in the order they were built, and a
    static is initialised exactly when its kind is in the list, to the
    handle at its position. *)
Definition cache_inv (s : State) : Prop :=
  exists ks : list Kind,
    NoDup ks /\
    templates s = template_of <$> ks /\
    forall k i, cached_template k s = Some i <-> ks !! i = Some k.

(** [frame m]: the computation [m] leaves native memory as it found it,
    whether it returns or faults. *)
Definition frame {A} (m : M A) : Prop :=
  forall s, native (snd (m s)) = native s.

(** The property names each [Make...Template] registers, in source order. *)
Definition property_names (k : Kind) : list string :=
  match k with
  | KSurface => ["flags"; "format"; "w"; "h"; "pitch"; "clip_rect"]
  | KRect => ["x"; "y"; "w"; "h"]
  | KPixelFormat => ["bitsPerPixel"; "bytesPerPixel"; "colorkey"; "alpha"]
  | KJoystick => []
  | KFont => []
  end.

(** The characters of a host string under a decoder [decode] for C
    strings: the decoded pieces, one after the other. *)
Definition host_chars {C : Type} (decode : string -> list C)
           (pieces : list string) : list C :=
  concat (decode <$> pieces).


(** The five kinds. *)
Definition all_kinds : list Kind :=
  [KSurface; KRect; KPixelFormat; KJoystick; KFont].

(** [heap_shape s]: every template instance on the object heap has exactly
    one internal field, holding an [External], and is an instance of one of
    the five templates. *)
Definition heap_shape (s : State) : Prop :=
  forall h t fs,
    objects s !! h = Some (JSInstance t fs) ->
    exists p k, fs = [VExternal p] /\ templates s !! t = Some (template_of k).

(** * Verification *)

(** ** Basic facts *)

Lemma lookup_snoc {A} (l : list A) (x : A) : (l ++ [x]) !! length l = Some x.
Proof. induction l; simpl; auto. Qed.

Lemma insert_snoc {A} (l : list A) (x y : A) :
  <[length l := y]> (l ++ [x]) = l ++ [y].
Proof. induction l; simpl; f_equal; auto. Qed.

Lemma lookup_snoc_old {A} (l : list A) (x y : A) (i : nat) :
  l !! i = Some y -> (l ++ [x]) !! i = Some y.
Proof. intros H. apply lookup_app_l_Some. exact H. Qed.

Ltac run_monad :=
  repeat (progress (unfold bind, ret, modify, get_state, fault, lift_option;
                    simpl;
                    rewrite ?lookup_snoc, ?insert_snoc; simpl)).

Lemma MakeTemplate_eq (k : Kind) (s : State) :
  MakeTemplate k s =
  (Ok (length (templates s)),
   set_templates (templates s ++ [template_of k]) s).
Proof.
  destruct s as [m e o t c1 c2 c3 c4 c5 px].
  destruct k; unfold MakeTemplate, MakeSurfaceTemplate, MakeRectTemplate,
    MakePixelFormatTemplate, MakeJoystickTemplate, MakeFontTemplate,
    ObjectTemplate_New, SetInternalFieldCount, SetAccessor, set_templates;
    run_monad; reflexivity.
Qed.

Lemma MakeSurfaceTemplate_eq (s : State) :
  MakeSurfaceTemplate s =
  (Ok (length (templates s)),
   set_templates (templates s ++ [template_of KSurface]) s).
Proof. exact (MakeTemplate_eq KSurface s). Qed.

Lemma MakeRectTemplate_eq (s : State) :
  MakeRectTemplate s =
  (Ok (length (templates s)),
   set_templates (templates s ++ [template_of KRect]) s).
Proof. exact (MakeTemplate_eq KRect s). Qed.

Lemma MakePixelFormatTemplate_eq (s : State) :
  MakePixelFormatTemplate s =
  (Ok (length (templates s)),
   set_templates (templates s ++ [template_of KPixelFormat]) s).
Proof. exact (MakeTemplate_eq KPixelFormat s). Qed.

Lemma MakeJoystickTemplate_eq (s : State) :
  MakeJoystickTemplate s =
  (Ok (length (templates s)),
   set_templates (templates s ++ [template_of KJoystick]) s).
Proof. exact (MakeTemplate_eq KJoystick s). Qed.

Lemma MakeFontTemplate_eq (s : State) :
  MakeFontTemplate s =
  (Ok (length (templates s)),
   set_templates (templates s ++ [template_of KFont]) s).
Proof. exact (MakeTemplate_eq KFont s). Qed.

Ltac unfold_setters :=
  unfold set_templates, set_objects, set_surface_template_,
    set_rect_template_, set_pixelformat_template_, set_joystick_template_,
    set_font_template_, set_pending_exception, set_native, set_sdl_error.

(** [Wrap k p] never faults in a well-formed state; it returns the next
    free object handle and leaves [wrap_post k p s]. *)
Lemma Wrap_eq (k : Kind) (p : ptr) (s : State) :
  wf s -> Wrap k p s = (Ok (length (objects s)), wrap_post k p s).
Proof.
  intros Hwf. pose proof (Hwf k) as Hk.
  destruct s as [m e o t c1 c2 c3 c4 c5 px].
  unfold cache_ok in Hk.
  destruct k; simpl in Hk;
    unfold Wrap, WrapSurface, WrapRect, WrapPixelFormat, WrapJoystick,
      WrapFont, wrap_post, ensure_template; simpl;
    match goal with
    | H : match ?c with Some _ => _ | None => _ end |- _ => destruct c as [tid|]
    end;
    run_monad;
    rewrite ?MakeSurfaceTemplate_eq, ?MakeRectTemplate_eq,
      ?MakePixelFormatTemplate_eq, ?MakeJoystickTemplate_eq,
      ?MakeFontTemplate_eq;
    unfold NewInstance, External_New, SetInternalField; unfold_setters;
    run_monad; rewrite ?Hk; run_monad; reflexivity.
Qed.

(** [Unwrap] of any kind reads internal field 0 and leaves the state as it
    is; it faults when the field does not hold an [External]. *)
Lemma Unwrap_eq (k : Kind) (obj : nat) (s : State) :
  Unwrap k obj s =
  (match stored_pointer s obj with Some p => Ok p | None => Fault end, s).
Proof.
  unfold stored_pointer.
  destruct k; unfold Unwrap, UnwrapSurface, UnwrapRect, UnwrapPixelFormat,
    UnwrapJoystick, UnwrapFont, GetInternalField, External_Value; run_monad;
    destruct (objects s !! obj) as [[t [|[] fs]|msg]|]; reflexivity.
Qed.

Lemma bind_Unwrap {B} (k : Kind) (obj : nat) (f : ptr -> M B) (s : State) :
  bind (Unwrap k obj) f s =
  match stored_pointer s obj with Some p => f p s | None => (Fault, s) end.
Proof.
  unfold bind. rewrite Unwrap_eq. destruct (stored_pointer s obj); reflexivity.
Qed.

Lemma bind_Wrap {B} (k : Kind) (p : ptr) (f : nat -> M B) (s : State) :
  wf s -> bind (Wrap k p) f s = f (length (objects s)) (wrap_post k p s).
Proof. intros H. unfold bind. rewrite Wrap_eq by exact H. reflexivity. Qed.

Lemma MakeSDLException_eq (name : string) (s : State) :
  MakeSDLException name s =
  (Ok (VObject (length (objects s))),
   set_objects
     (objects s ++ [JSError [name; ": "; sdl_error s]]) s).
Proof.
  unfold MakeSDLException, String_New, String_Concat, SDL_GetError,
    Exception_Error.
  run_monad. reflexivity.
Qed.

Lemma ThrowSDLException_eq (name : string) (s : State) :
  ThrowSDLException name s =
  (Ok Undefined,
   set_pending_exception (Some (VObject (length (objects s))))
     (set_objects
        (objects s ++ [JSError [name; ": "; sdl_error s]]) s)).
Proof.
  unfold ThrowSDLException, bind at 1. rewrite MakeSDLException_eq.
  reflexivity.
Qed.

Ltac unfold_getters :=
  unfold call_getter, GetSurfaceFlags, GetSurfaceFormat, GetSurfaceWidth,
    GetSurfaceHeight, GetSurfacePitch, GetSurfaceRect, GetRectX, GetRectY,
    GetRectW, GetRectH, GetFormatBits, GetFormatBytes, GetFormatColorkey,
    GetFormatAlpha.

Ltac scalar_getter :=
  unfold_getters;
  change UnwrapSurface with (Unwrap KSurface);
  change UnwrapRect with (Unwrap KRect);
  change UnwrapPixelFormat with (Unwrap KPixelFormat);
  rewrite bind_Unwrap;
  unfold project_surface, project_rect, project_format,
    read_surface, read_rect, read_format, Number_New;
  match goal with
  | |- context [stored_pointer ?s ?h] =>
      destruct (stored_pointer s h) as [p|]; [ | reflexivity ]
  end;
  run_monad;
  match goal with
  | |- context [deref_surface ?m ?q] => destruct (deref_surface m q)
  | |- context [deref_rect ?m ?q] => destruct (deref_rect m q)
  | |- context [deref_format ?m ?q] => destruct (deref_format m q)
  end; reflexivity.

Lemma GetSurfaceFlags_eq name info s :
  GetSurfaceFlags name info s = (project_surface flags s (Holder info), s).
Proof. scalar_getter. Qed.

Lemma GetSurfaceWidth_eq name info s :
  GetSurfaceWidth name info s = (project_surface surf_w s (Holder info), s).
Proof. scalar_getter. Qed.

Lemma GetSurfaceHeight_eq name info s :
  GetSurfaceHeight name info s = (project_surface surf_h s (Holder info), s).
Proof. scalar_getter. Qed.

Lemma GetSurfacePitch_eq name info s :
  GetSurfacePitch name info s = (project_surface pitch s (Holder info), s).
Proof. scalar_getter. Qed.

Lemma GetRectX_eq name info s :
  GetRectX name info s = (project_rect rect_x s (Holder info), s).
Proof. scalar_getter. Qed.

Lemma GetRectY_eq name info s :
  GetRectY name info s = (project_rect rect_y s (Holder info), s).
Proof. scalar_getter. Qed.

Lemma GetRectW_eq name info s :
  GetRectW name info s = (project_rect rect_w s (Holder info), s).
Proof. scalar_getter. Qed.

Lemma GetRectH_eq name info s :
  GetRectH name info s = (project_rect rect_h s (Holder info), s).
Proof. scalar_getter. Qed.

Lemma GetFormatBits_eq name info s :
  GetFormatBits name info s = (project_format BitsPerPixel s (Holder info), s).
Proof. scalar_getter. Qed.

Lemma GetFormatBytes_eq name info s :
  GetFormatBytes name info s =
  (project_format BytesPerPixel s (Holder info), s).
Proof. scalar_getter. Qed.

Lemma GetFormatColorkey_eq name info s :
  GetFormatColorkey name info s = (project_format colorkey s (Holder info), s).
Proof. scalar_getter. Qed.

Lemma GetFormatAlpha_eq name info s :
  GetFormatAlpha name info s = (project_format alpha s (Holder info), s).
Proof. scalar_getter. Qed.

(** The two nested accessors wrap a pointer taken from the surface. *)
Lemma GetSurfaceFormat_eq name info s :
  wf s ->
  GetSurfaceFormat name info s =
  match stored_pointer s (Holder info) with
  | Some p =>
      match deref_surface (native s) p with
      | Some sf => (Ok (VObject (length (objects s))),
                    wrap_post KPixelFormat (format sf) s)
      | None => (Fault, s)
      end
  | None => (Fault, s)
  end.
Proof.
  intros Hwf. unfold GetSurfaceFormat.
  change UnwrapSurface with (Unwrap KSurface). rewrite bind_Unwrap.
  destruct (stored_pointer s (Holder info)) as [p|]; [ | reflexivity ].
  unfold read_surface. unfold bind at 1. unfold bind at 1, get_state at 1.
  unfold lift_option. destruct (deref_surface (native s) p) as [sf|];
    [ | reflexivity ].
  unfold ret at 1. change WrapPixelFormat with (Wrap KPixelFormat).
  rewrite bind_Wrap by exact Hwf. reflexivity.
Qed.

Lemma GetSurfaceRect_eq name info s :
  wf s ->
  GetSurfaceRect name info s =
  match stored_pointer s (Holder info) with
  | Some p => (Ok (VObject (length (objects s))),
               wrap_post KRect (ClipRectOf p) s)
  | None => (Fault, s)
  end.
Proof.
  intros Hwf. unfold GetSurfaceRect.
  change UnwrapSurface with (Unwrap KSurface). rewrite bind_Unwrap.
  destruct (stored_pointer s (Holder info)) as [p|]; [ | reflexivity ].
  change WrapRect with (Wrap KRect).
  rewrite bind_Wrap by exact Hwf. reflexivity.
Qed.

Lemma call_getter_step (g : AccessorGetter) (name : string)
      (info : AccessorInfo) (s : State) :
  wf s -> layer_step s (snd (call_getter g name info s)).
Proof.
  intros Hwf. destruct g; unfold call_getter;
    rewrite ?GetSurfaceFlags_eq, ?GetSurfaceWidth_eq, ?GetSurfaceHeight_eq,
      ?GetSurfacePitch_eq, ?GetRectX_eq, ?GetRectY_eq, ?GetRectW_eq,
      ?GetRectH_eq, ?GetFormatBits_eq, ?GetFormatBytes_eq,
      ?GetFormatColorkey_eq, ?GetFormatAlpha_eq;
    try apply step_none.
  - rewrite GetSurfaceFormat_eq by exact Hwf.
    destruct (stored_pointer s (Holder info)) as [p|]; [ | apply step_none ].
    destruct (deref_surface (native s) p); [ apply step_wrap | apply step_none ].
  - rewrite GetSurfaceRect_eq by exact Hwf.
    destruct (stored_pointer s (Holder info)) as [p|];
      [ apply step_wrap | apply step_none ].
Qed.

Lemma GetProperty_step (obj : nat) (name : string) (s : State) :
  wf s -> layer_step s (snd (GetProperty obj name s)).
Proof.
  intros Hwf. unfold GetProperty. run_monad.
  destruct (objects s !! obj) as [[t fs|msg]|]; simpl; try apply step_none.
  - destruct (templates s !! t) as [tm|]; simpl; try apply step_none.
    destruct (find_accessor name (accessors tm)); try apply step_none.
    apply call_getter_step; exact Hwf.
  - destruct (decide (name = "message")); apply step_none.
Qed.

Lemma exec_op_step (o : Op) (s : State) :
  wf s -> layer_step s (snd (exec_op o s)).
Proof.
  intros Hwf. destruct o as [k p|k obj|obj name|g name holder|name|name];
    unfold exec_op.
  - rewrite bind_Wrap by exact Hwf. apply step_wrap.
  - rewrite bind_Unwrap. destruct (stored_pointer s obj); apply step_none.
  - apply GetProperty_step; exact Hwf.
  - apply call_getter_step; exact Hwf.
  - rewrite MakeSDLException_eq. apply step_error.
  - rewrite ThrowSDLException_eq. apply step_throw.
Qed.

(** ** What [wrap_post] does to each component of the state *)

Lemma wrap_post_objects (k : Kind) (p : ptr) (s : State) :
  objects (wrap_post k p s) =
  objects s ++
    [JSInstance (default (length (templates s)) (cached_template k s))
                [VExternal p]].
Proof.
  destruct s as [m e o t c1 c2 c3 c4 c5 px].
  unfold wrap_post, ensure_template.
  destruct k; simpl;
    match goal with |- context [match ?c with _ => _ end] => destruct c end;
    reflexivity.
Qed.

Lemma wrap_post_templates (k : Kind) (p : ptr) (s : State) :
  templates (wrap_post k p s) =
  match cached_template k s with
  | Some _ => templates s
  | None => templates s ++ [template_of k]
  end.
Proof.
  destruct s as [m e o t c1 c2 c3 c4 c5 px].
  unfold wrap_post, ensure_template.
  destruct k; simpl;
    match goal with |- context [match ?c with _ => _ end] => destruct c end;
    reflexivity.
Qed.

Lemma wrap_post_cached (k k' : Kind) (p : ptr) (s : State) :
  cached_template k' (wrap_post k p s) =
  match cached_template k s with
  | Some _ => cached_template k' s
  | None => if decide (k' = k) then Some (length (templates s))
            else cached_template k' s
  end.
Proof.
  destruct s as [m e o t c1 c2 c3 c4 c5 px].
  unfold wrap_post, ensure_template.
  destruct k; simpl;
    match goal with |- context [match ?c with _ => _ end] => destruct c end;
    destruct k'; reflexivity.
Qed.

Lemma wrap_post_native (k : Kind) (p : ptr) (s : State) :
  native (wrap_post k p s) = native s /\
  sdl_error (wrap_post k p s) = sdl_error s /\
  pending_exception (wrap_post k p s) = pending_exception s.
Proof.
  destruct s as [m e o t c1 c2 c3 c4 c5 px].
  unfold wrap_post, ensure_template.
  destruct k; simpl;
    match goal with |- context [match ?c with _ => _ end] => destruct c end;
    repeat split.
Qed.

(** ** Invariants of runs *)

Lemma extends_refl (s : State) : extends s s.
Proof. repeat split; auto. Qed.

Lemma extends_trans (s1 s2 s3 : State) :
  extends s1 s2 -> extends s2 s3 -> extends s1 s3.
Proof.
  intros (A1 & B1 & C1) (A2 & B2 & C2). repeat split; auto.
Qed.

Lemma layer_step_extends (s s' : State) : layer_step s s' -> extends s s'.
Proof.
  intros H. destruct H as [|k p|msg|msg].
  - apply extends_refl.
  - repeat split.
    + intros h o Ho. rewrite wrap_post_objects. now apply lookup_snoc_old.
    + intros t tm Ht. rewrite wrap_post_templates.
      destruct (cached_template k s); [exact Ht | now apply lookup_snoc_old].
    + intros k' t Hk'. rewrite wrap_post_cached.
      destruct (cached_template k s) eqn:E; [exact Hk' |].
      destruct (decide (k' = k)) as [->|]; [congruence | exact Hk'].
  - repeat split; auto. intros h o Ho. simpl. now apply lookup_snoc_old.
  - repeat split; auto. intros h o Ho. simpl. now apply lookup_snoc_old.
Qed.

Lemma layer_step_wf (s s' : State) : wf s -> layer_step s s' -> wf s'.
Proof.
  intros Hwf H. destruct H as [|k p|msg|msg]; try exact Hwf.
  intros k'. unfold cache_ok.
  rewrite wrap_post_cached, wrap_post_templates.
  pose proof (Hwf k') as Hk'. unfold cache_ok in Hk'.
  destruct (cached_template k s) eqn:E; [exact Hk' |].
  destruct (decide (k' = k)) as [->|].
  - apply lookup_snoc.
  - destruct (cached_template k' s); [now apply lookup_snoc_old | exact I].
Qed.

Lemma layer_step_native (s s' : State) :
  layer_step s s' -> native s' = native s /\ sdl_error s' = sdl_error s.
Proof.
  intros H. destruct H as [|k p|msg|msg]; try (split; reflexivity).
  pose proof (wrap_post_native k p s). tauto.
Qed.

(** The native library acting on its own memory leaves the host side alone. *)
Lemma native_change_wf (s s' : State) :
  templates s' = templates s ->
  (forall k, cached_template k s' = cached_template k s) ->
  wf s -> wf s'.
Proof.
  intros Ht Hc Hwf k. unfold cache_ok. rewrite Hc, Ht. exact (Hwf k).
Qed.

Lemma native_change_extends (s s' : State) :
  objects s' = objects s ->
  templates s' = templates s ->
  (forall k, cached_template k s' = cached_template k s) ->
  extends s s'.
Proof.
  intros Ho Ht Hc. repeat split.
  - intros h o. now rewrite Ho.
  - intros t tm. now rewrite Ht.
  - intros k t. now rewrite Hc.
Qed.

Lemma exec_event_inv (e : Event) (s : State) :
  wf s -> wf (snd (exec_event e s)) /\ extends s (snd (exec_event e s)).
Proof.
  intros Hwf. destruct e as [o|a v|a|err].
  - pose proof (exec_op_step o s Hwf) as H. simpl.
    split; [eapply layer_step_wf; eauto | now apply layer_step_extends].
  - split; [apply (native_change_wf s); auto | apply native_change_extends; auto].
  - split; [apply (native_change_wf s); auto | apply native_change_extends; auto].
  - split; [apply (native_change_wf s); auto | apply native_change_extends; auto].
Qed.

Lemma state_after_nil (s : State) : state_after [] s = s.
Proof. reflexivity. Qed.

Lemma state_after_cons (e : Event) (es : list Event) (s : State) :
  state_after (e :: es) s =
  match fst (exec_event e s) with
  | Ok _ => state_after es (snd (exec_event e s))
  | Fault => snd (exec_event e s)
  end.
Proof.
  unfold state_after. simpl. unfold bind at 1.
  destruct (exec_event e s) as [[v|] s1]; simpl; [ | reflexivity ].
  unfold bind. destruct (run es s1) as [[vs|] s2]; reflexivity.
Qed.

(** Every run from a well-formed state ends in a well-formed state that
    extends it. *)
Lemma run_inv (es : list Event) (s : State) :
  wf s -> wf (state_after es s) /\ extends s (state_after es s).
Proof.
  revert s. induction es as [|e es IH]; intros s Hwf.
  - split; [exact Hwf | apply extends_refl].
  - rewrite state_after_cons.
    destruct (exec_event_inv e s Hwf) as [Hwf1 Hext1].
    destruct (fst (exec_event e s)); [ | split; assumption ].
    destruct (IH _ Hwf1) as [Hwf2 Hext2].
    split; [exact Hwf2 | eapply extends_trans; eauto].
Qed.

Lemma wf_initial (m : gmap positive NativeObject) (e : string) :
  wf (initial_state m e).
Proof. intros []; exact I. Qed.

(** Every state a process can reach is well formed. *)
Lemma wf_reachable (m : gmap positive NativeObject) (e : string)
      (es : list Event) :
  wf (state_after es (initial_state m e)).
Proof. apply run_inv, wf_initial. Qed.

(** ** Wrappers *)

Lemma is_wrapper_extends (k : Kind) (s s' : State) (h : nat) (p : ptr) :
  extends s s' -> is_wrapper k s h p -> is_wrapper k s' h p.
Proof.
  intros (Ho & Ht & _) (t & H1 & H2). exists t. split; auto.
Qed.

Lemma is_wrapper_stored (k : Kind) (s : State) (h : nat) (p : ptr) :
  is_wrapper k s h p -> stored_pointer s h = Some p.
Proof. intros (t & H1 & _). unfold stored_pointer. now rewrite H1. Qed.

Lemma wrap_post_is_wrapper (k : Kind) (p : ptr) (s : State) :
  wf s -> is_wrapper k (wrap_post k p s) (length (objects s)) p.
Proof.
  intros Hwf. pose proof (Hwf k) as Hk. unfold cache_ok in Hk.
  exists (default (length (templates s)) (cached_template k s)).
  rewrite wrap_post_objects, wrap_post_templates. split.
  - apply lookup_snoc.
  - destruct (cached_template k s); simpl; [exact Hk | apply lookup_snoc].
Qed.

Lemma wrap_post_wf (k : Kind) (p : ptr) (s : State) :
  wf s -> wf (wrap_post k p s).
Proof. intros Hwf. eapply layer_step_wf; [exact Hwf | apply step_wrap]. Qed.

(** A wrapper made in a well-formed state is still that wrapper after any
    run, whatever the native library does in between. *)
Lemma wrapper_survives (k : Kind) (p : ptr) (s : State) (es : list Event) :
  wf s ->
  wf (state_after es (wrap_post k p s)) /\
  is_wrapper k (state_after es (wrap_post k p s)) (length (objects s)) p.
Proof.
  intros Hwf.
  destruct (run_inv es _ (wrap_post_wf k p s Hwf)) as [Hwf' Hext].
  split; [exact Hwf' |].
  eapply is_wrapper_extends; [exact Hext |].
  now apply wrap_post_is_wrapper.
Qed.

Lemma Unwrap_wrapper (k k' : Kind) (s : State) (h : nat) (p : ptr) :
  is_wrapper k s h p -> Unwrap k' h s = (Ok p, s).
Proof.
  intros H. rewrite Unwrap_eq, (is_wrapper_stored _ _ _ _ H). reflexivity.
Qed.

(** ** C1 *)

(** C1. Wrap/unwrap round trip: in every well-formed state and for each of
    the five kinds, wrapping [p] returns an object whose only internal field
    holds [p], and unwrapping that object returns exactly [p], immediately
    and after any later run. *)
Theorem wrap_unwrap_roundtrip (k : Kind) (p : ptr) (s : State) :
  wf s ->
  exists h s' t,
    Wrap k p s = (Ok h, s') /\
    objects s' !! h = Some (JSInstance t [VExternal p]) /\
    Unwrap k h s' = (Ok p, s') /\
    forall es : list Event,
      Unwrap k h (state_after es s') = (Ok p, state_after es s').
Proof.
  intros Hwf.
  destruct (wrap_post_is_wrapper k p s Hwf) as (t & Ho & Ht).
  exists (length (objects s)), (wrap_post k p s), t.
  split; [now apply Wrap_eq |]. split; [exact Ho |]. split.
  - apply (Unwrap_wrapper k). exists t. split; assumption.
  - intros es. apply (Unwrap_wrapper k).
    now apply wrapper_survives.
Qed.

Lemma wrap_unwrap_roundtrip_witness :
  wf (initial_state ∅ "") /\
  exists h s' t,
    Wrap KSurface (Alloc 1) (initial_state ∅ "") = (Ok h, s') /\
    objects s' !! h = Some (JSInstance t [VExternal (Alloc 1)]) /\
    Unwrap KSurface h s' = (Ok (Alloc 1), s') /\
    forall es : list Event,
      Unwrap KSurface h (state_after es s') = (Ok (Alloc 1), state_after es s').
Proof.
  split.
  - intros []; exact I.
  - apply (wrap_unwrap_roundtrip KSurface (Alloc 1) (initial_state ∅ "")).
    intros []; exact I.
Defined.

(** ** C9 *)

(** C9. Unwrap does not check the kind: a wrapper made by [Wrap k] is
    unwrapped by the [Unwrap] of any kind [k'] to the very pointer it holds,
    without a fault and without any change of state (so without a pending
    exception being set). *)
Theorem unwrap_ignores_kind (k k' : Kind) (p : ptr) (s : State) :
  wf s ->
  exists h s',
    Wrap k p s = (Ok h, s') /\ Unwrap k' h s' = (Ok p, s').
Proof.
  intros Hwf. exists (length (objects s)), (wrap_post k p s).
  split; [now apply Wrap_eq |].
  apply (Unwrap_wrapper k). now apply wrap_post_is_wrapper.
Qed.

Lemma unwrap_ignores_kind_witness :
  wf (initial_state ∅ "") /\
  exists h s',
    Wrap KSurface (Alloc 1) (initial_state ∅ "") = (Ok h, s') /\
    Unwrap KRect h s' = (Ok (Alloc 1), s').
Proof.
  split.
  - intros []; exact I.
  - apply (unwrap_ignores_kind KSurface KRect (Alloc 1) (initial_state ∅ "")).
    intros []; exact I.
Defined.

(** ** C10 *)

Lemma call_getter_null (g : AccessorGetter) (name : string) (h : nat)
      (s : State) :
  wf s -> stored_pointer s h = Some NULL -> g <> fn_GetSurfaceRect ->
  fst (call_getter g name (mkInfo h) s) = Fault.
Proof.
  intros Hwf Hp Hg. destruct g; unfold call_getter;
    rewrite ?GetSurfaceFlags_eq, ?GetSurfaceWidth_eq, ?GetSurfaceHeight_eq,
      ?GetSurfacePitch_eq, ?GetRectX_eq, ?GetRectY_eq, ?GetRectW_eq,
      ?GetRectH_eq, ?GetFormatBits_eq, ?GetFormatBytes_eq,
      ?GetFormatColorkey_eq, ?GetFormatAlpha_eq;
    unfold project_surface, project_rect, project_format; simpl;
    rewrite ?Hp; try reflexivity.
  - rewrite GetSurfaceFormat_eq by exact Hwf. simpl. rewrite Hp. reflexivity.
  - congruence.
Qed.

(** C10. Wrapping a null pointer succeeds: for each kind, [Wrap k NULL]
    returns a wrapper without a fault and without setting a pending
    exception; unwrapping it yields [NULL]; the fault only comes when an
    accessor dereferences the pointer (every accessor but [GetSurfaceRect],
    which only computes an address). *)
Theorem wrap_null_succeeds (k : Kind) (s : State) :
  wf s ->
  exists h s',
    Wrap k NULL s = (Ok h, s') /\
    Unwrap k h s' = (Ok NULL, s') /\
    pending_exception s' = pending_exception s /\
    forall (g : AccessorGetter) (name : string),
      g <> fn_GetSurfaceRect ->
      fst (call_getter g name (mkInfo h) s') = Fault.
Proof.
  intros Hwf. exists (length (objects s)), (wrap_post k NULL s).
  pose proof (wrap_post_is_wrapper k NULL s Hwf) as Hw.
  split; [now apply Wrap_eq |].
  split; [now apply (Unwrap_wrapper k) |].
  split; [apply wrap_post_native |].
  intros g name Hg. apply call_getter_null; auto.
  - now apply wrap_post_wf.
  - now apply (is_wrapper_stored k).
Qed.

Lemma wrap_null_succeeds_witness :
  wf (initial_state ∅ "") /\
  exists h s',
    Wrap KJoystick NULL (initial_state ∅ "") = (Ok h, s') /\
    Unwrap KJoystick h s' = (Ok NULL, s') /\
    pending_exception s' = pending_exception (initial_state ∅ "") /\
    forall (g : AccessorGetter) (name : string),
      g <> fn_GetSurfaceRect ->
      fst (call_getter g name (mkInfo h) s') = Fault.
Proof.
  split.
  - intros []; exact I.
  - apply (wrap_null_succeeds KJoystick (initial_state ∅ "")).
    intros []; exact I.
Defined.

(** ** Property reads on wrappers *)

Lemma GetProperty_wrapper (k : Kind) (s : State) (h : nat) (p : ptr)
      (name : string) :
  is_wrapper k s h p ->
  GetProperty h name s =
  match find_accessor name (accessors (template_of k)) with
  | Some g => call_getter g name (mkInfo h) s
  | None => (Ok (VOrdinary h name), s)
  end.
Proof.
  intros (t & Ho & Ht). unfold GetProperty. run_monad.
  rewrite Ho. simpl. rewrite Ht. simpl.
  destruct (find_accessor name (accessors (template_of k))); reflexivity.
Qed.


(** ** C5 *)






(** ** C4 *)

(** C4. Error formatting: [MakeSDLException name] returns a fresh [Error]
    object whose message is the host string made of [String::New(name)],
    then [String::New(": ")], then [String::New] of the string
    [SDL_GetError()] returns in that state, in this order and with nothing
    else; under any decoder its characters are those of [name], of [": "]
    and of the error text, one after the other.  [ThrowSDLException name]
    makes the same object, schedules exactly it as the pending exception
    and returns undefined. *)
Theorem sdl_exception_message (name : string) (s : State) :
  exists (e : nat) (err : string) (s' : State),
    SDL_GetError s = (Ok err, s) /\
    MakeSDLException name s = (Ok (VObject e), s') /\
    objects s' !! e = Some (JSError [name; ": "; err]) /\
    objects s !! e = None /\
    GetProperty e "message" s' = (Ok (VString [name; ": "; err]), s') /\
    (forall (C : Type) (decode : string -> list C),
        host_chars decode [name; ": "; err] =
        decode name ++ decode ": " ++ decode err) /\
    ThrowSDLException name s =
      (Ok Undefined, set_pending_exception (Some (VObject e)) s') /\
    pending_exception (snd (ThrowSDLException name s)) = Some (VObject e).
Proof.
  exists (length (objects s)), (sdl_error s).
  eexists. split; [reflexivity |].
  split; [apply MakeSDLException_eq |].
  split; [apply lookup_snoc |].
  split; [apply lookup_ge_None_2; lia |].
  split.
  { unfold GetProperty. run_monad. reflexivity. }
  split.
  { intros C decode. unfold host_chars. simpl. now rewrite app_nil_r. }
  rewrite ThrowSDLException_eq. split; reflexivity.
Qed.

(** ** C2 *)

Lemma wf_example_state : wf example_state.
Proof. intros []; exact I. Qed.

Lemma Wrap_inv (k : Kind) (p : ptr) (s0 s1 : State) (h : nat)
      (es : list Event) :
  wf s0 -> Wrap k p s0 = (Ok h, s1) ->
  wf (state_after es s1) /\ is_wrapper k (state_after es s1) h p.
Proof.
  intros Hwf HW. rewrite Wrap_eq in HW by exact Hwf.
  injection HW as <- <-. now apply wrapper_survives.
Qed.

(** C2. Scalar accessors: take a wrapper made by [WrapSurface], [WrapRect]
    or [WrapPixelFormat] in a well-formed state, and let any run follow, in
    which the native library may store into its memory.  If the wrapped
    pointer then addresses a struct [v], reading each scalar property
    returns the value the corresponding field of [v] has in that state, and
    the read changes nothing. *)
Theorem scalar_accessors_read_live_fields (s0 : State) (es : list Event) :
  wf s0 ->
  (forall p h s1 sf,
      WrapSurface p s0 = (Ok h, s1) ->
      deref_surface (native (state_after es s1)) p = Some sf ->
      let s := state_after es s1 in
      GetProperty h "flags" s = (Ok (VNumber (flags sf)), s) /\
      GetProperty h "w" s = (Ok (VNumber (surf_w sf)), s) /\
      GetProperty h "h" s = (Ok (VNumber (surf_h sf)), s) /\
      GetProperty h "pitch" s = (Ok (VNumber (pitch sf)), s)) /\
  (forall p h s1 r,
      WrapRect p s0 = (Ok h, s1) ->
      deref_rect (native (state_after es s1)) p = Some r ->
      let s := state_after es s1 in
      GetProperty h "x" s = (Ok (VNumber (rect_x r)), s) /\
      GetProperty h "y" s = (Ok (VNumber (rect_y r)), s) /\
      GetProperty h "w" s = (Ok (VNumber (rect_w r)), s) /\
      GetProperty h "h" s = (Ok (VNumber (rect_h r)), s)) /\
  (forall p h s1 f,
      WrapPixelFormat p s0 = (Ok h, s1) ->
      deref_format (native (state_after es s1)) p = Some f ->
      let s := state_after es s1 in
      GetProperty h "bitsPerPixel" s = (Ok (VNumber (BitsPerPixel f)), s) /\
      GetProperty h "bytesPerPixel" s = (Ok (VNumber (BytesPerPixel f)), s) /\
      GetProperty h "colorkey" s = (Ok (VNumber (colorkey f)), s) /\
      GetProperty h "alpha" s = (Ok (VNumber (alpha f)), s)).
Proof.
  intros Hwf.
  split; [ | split ]; intros p h s1 v HW Hd s.
  1: change (Wrap KSurface p s0 = (Ok h, s1)) in HW.
  2: change (Wrap KRect p s0 = (Ok h, s1)) in HW.
  3: change (Wrap KPixelFormat p s0 = (Ok h, s1)) in HW.
  all: destruct (Wrap_inv _ _ _ _ _ es Hwf HW) as [_ Hw]; fold s in Hw, Hd.
  all: rewrite !(GetProperty_wrapper _ _ _ _ _ Hw); simpl;
    rewrite ?GetSurfaceFlags_eq, ?GetSurfaceWidth_eq, ?GetSurfaceHeight_eq,
      ?GetSurfacePitch_eq, ?GetRectX_eq, ?GetRectY_eq, ?GetRectW_eq,
      ?GetRectH_eq, ?GetFormatBits_eq, ?GetFormatBytes_eq,
      ?GetFormatColorkey_eq, ?GetFormatAlpha_eq;
    unfold project_surface, project_rect, project_format; simpl;
    rewrite (is_wrapper_stored _ _ _ _ Hw), Hd; repeat split.
Qed.

Lemma scalar_accessors_read_live_fields_witness :
  wf example_state /\
  (let s := state_after example_events
              (snd (WrapSurface (Alloc 1) example_state)) in
   GetProperty 0 "flags" s = (Ok (VNumber 9), s) /\
   GetProperty 0 "w" s = (Ok (VNumber 800), s) /\
   GetProperty 0 "h" s = (Ok (VNumber 600), s) /\
   GetProperty 0 "pitch" s = (Ok (VNumber 1600), s)) /\
  (let s := state_after example_events
              (snd (WrapRect (Alloc 3) example_state)) in
   GetProperty 0 "x" s = (Ok (VNumber 11), s) /\
   GetProperty 0 "y" s = (Ok (VNumber 21), s) /\
   GetProperty 0 "w" s = (Ok (VNumber 31), s) /\
   GetProperty 0 "h" s = (Ok (VNumber 41), s)) /\
  (let s := state_after example_events
              (snd (WrapPixelFormat (Alloc 2) example_state)) in
   GetProperty 0 "bitsPerPixel" s = (Ok (VNumber 16), s) /\
   GetProperty 0 "bytesPerPixel" s = (Ok (VNumber 2), s) /\
   GetProperty 0 "colorkey" s = (Ok (VNumber 5), s) /\
   GetProperty 0 "alpha" s = (Ok (VNumber 128), s)).
Proof.
  destruct (scalar_accessors_read_live_fields example_state example_events
              wf_example_state) as (HS & HR & HF).
  split; [exact wf_example_state |]. split; [ | split ].
  - apply (HS (Alloc 1) 0%nat _
              (mkSurface 9 (Alloc 2) 800 600 1600 (mkRect 0 0 800 600)));
      vm_compute; reflexivity.
  - apply (HR (Alloc 3) 0%nat _ (mkRect 11 21 31 41)); vm_compute; reflexivity.
  - apply (HF (Alloc 2) 0%nat _ (mkPixelFormat 16 2 5 128)); vm_compute; reflexivity.
Defined.

(** ** C3 *)

(** C3. Nested accessors: on a wrapper made by [WrapSurface p], after any
    run, reading "format" does what [WrapPixelFormat] does on the surface's
    current [format] pointer and returns that wrapper, which unwraps to the
    [format] pointer; reading "clip_rect" does what [WrapRect] does on
    [&surface->clip_rect] and returns that wrapper, which unwraps to
    [&surface->clip_rect]. *)
Theorem nested_accessors_wrap_field_pointers
        (p : ptr) (s0 : State) (es : list Event) (h : nat) (s1 : State) :
  wf s0 ->
  WrapSurface p s0 = (Ok h, s1) ->
  let s := state_after es s1 in
  (forall sf,
      deref_surface (native s) p = Some sf ->
      exists w s',
        GetProperty h "format" s = (Ok (VObject w), s') /\
        WrapPixelFormat (format sf) s = (Ok w, s') /\
        is_wrapper KPixelFormat s' w (format sf) /\
        UnwrapPixelFormat w s' = (Ok (format sf), s')) /\
  (exists w s',
      GetProperty h "clip_rect" s = (Ok (VObject w), s') /\
      WrapRect (ClipRectOf p) s = (Ok w, s') /\
      is_wrapper KRect s' w (ClipRectOf p) /\
      UnwrapRect w s' = (Ok (ClipRectOf p), s')).
Proof.
  intros Hwf HW s.
  change (Wrap KSurface p s0 = (Ok h, s1)) in HW.
  destruct (Wrap_inv _ _ _ _ _ es Hwf HW) as [Hwfs Hw]. fold s in Hwfs, Hw.
  pose proof (is_wrapper_stored _ _ _ _ Hw) as Hp.
  split.
  - intros sf Hd.
    exists (length (objects s)), (wrap_post KPixelFormat (format sf) s).
    pose proof (wrap_post_is_wrapper KPixelFormat (format sf) s Hwfs) as Hw'.
    split; [ | split; [ | split ] ].
    + rewrite (GetProperty_wrapper _ _ _ _ _ Hw). simpl.
      rewrite GetSurfaceFormat_eq by exact Hwfs. simpl.
      rewrite Hp, Hd. reflexivity.
    + apply (Wrap_eq KPixelFormat); exact Hwfs.
    + exact Hw'.
    + apply (Unwrap_wrapper KPixelFormat KPixelFormat); exact Hw'.
  - exists (length (objects s)), (wrap_post KRect (ClipRectOf p) s).
    pose proof (wrap_post_is_wrapper KRect (ClipRectOf p) s Hwfs) as Hw'.
    split; [ | split; [ | split ] ].
    + rewrite (GetProperty_wrapper _ _ _ _ _ Hw). simpl.
      rewrite GetSurfaceRect_eq by exact Hwfs. simpl.
      rewrite Hp. reflexivity.
    + apply (Wrap_eq KRect); exact Hwfs.
    + exact Hw'.
    + apply (Unwrap_wrapper KRect KRect); exact Hw'.
Qed.

Lemma nested_accessors_wrap_field_pointers_witness :
  wf example_state /\
  WrapSurface (Alloc 1) example_state =
    (Ok 0%nat, snd (WrapSurface (Alloc 1) example_state)) /\
  let s := state_after example_events
             (snd (WrapSurface (Alloc 1) example_state)) in
  (forall sf,
      deref_surface (native s) (Alloc 1) = Some sf ->
      exists w s',
        GetProperty 0 "format" s = (Ok (VObject w), s') /\
        WrapPixelFormat (format sf) s = (Ok w, s') /\
        is_wrapper KPixelFormat s' w (format sf) /\
        UnwrapPixelFormat w s' = (Ok (format sf), s')) /\
  (exists w s',
      GetProperty 0 "clip_rect" s = (Ok (VObject w), s') /\
      WrapRect (ClipRectOf (Alloc 1)) s = (Ok w, s') /\
      is_wrapper KRect s' w (ClipRectOf (Alloc 1)) /\
      UnwrapRect w s' = (Ok (ClipRectOf (Alloc 1)), s')).
Proof.
  split; [exact wf_example_state |]. split; [vm_compute; reflexivity |].
  apply (nested_accessors_wrap_field_pointers (Alloc 1) example_state
           example_events 0%nat _ wf_example_state).
  vm_compute; reflexivity.
Defined.

(** ** C8 *)

(** C8. Joystick and Font wrappers expose nothing: the templates built by
    [MakeJoystickTemplate] and [MakeFontTemplate] have an empty accessor
    table, so no name finds an accessor.  A wrapper made by [WrapJoystick]
    or [WrapFont] is, after any run, an instance of such a template; a read
    of any property on it calls no accessor of this file: it is left to the
    host's ordinary lookup, changes nothing of the state kept here and
    projects no field, whatever the wrapped pointer is and whatever native
    memory holds. *)
Theorem joystick_font_expose_no_fields
        (k : Kind) (p : ptr) (s0 : State) (es : list Event) :
  k = KJoystick \/ k = KFont ->
  wf s0 ->
  (exists t s' tm,
      MakeTemplate k s0 = (Ok t, s') /\
      templates s' !! t = Some tm /\ accessors tm = [] /\
      forall name, find_accessor name (accessors tm) = None) /\
  exists h s1,
    Wrap k p s0 = (Ok h, s1) /\
    let s := state_after es s1 in
    (exists t tm,
        objects s !! h = Some (JSInstance t [VExternal p]) /\
        templates s !! t = Some tm /\ accessors tm = [] /\
        forall name, find_accessor name (accessors tm) = None) /\
    forall name : string,
      GetProperty h name s = (Ok (VOrdinary h name), s).
Proof.
  intros Hk Hwf. split.
  - exists (length (templates s0)),
      (set_templates (templates s0 ++ [template_of k]) s0), (template_of k).
    split; [apply MakeTemplate_eq |].
    split; [apply lookup_snoc |].
    destruct Hk as [-> | ->]; split; reflexivity.
  - exists (length (objects s0)), (wrap_post k p s0).
    split; [now apply Wrap_eq |].
    intros s.
    destruct (wrapper_survives k p s0 es Hwf) as [_ Hw]. fold s in Hw.
    split.
    + destruct Hw as (t & Ho & Ht). exists t, (template_of k).
      split; [exact Ho |]. split; [exact Ht |].
      destruct Hk as [-> | ->]; split; reflexivity.
    + intros name. rewrite (GetProperty_wrapper _ _ _ _ _ Hw).
      destruct Hk as [-> | ->]; reflexivity.
Qed.

Lemma joystick_font_expose_no_fields_witness :
  (KFont = KJoystick \/ KFont = KFont) /\
  wf example_state /\
  (exists t s' tm,
      MakeTemplate KFont example_state = (Ok t, s') /\
      templates s' !! t = Some tm /\ accessors tm = [] /\
      forall name, find_accessor name (accessors tm) = None) /\
  exists h s1,
    Wrap KFont (Alloc 1) example_state = (Ok h, s1) /\
    let s := state_after example_events s1 in
    (exists t tm,
        objects s !! h = Some (JSInstance t [VExternal (Alloc 1)]) /\
        templates s !! t = Some tm /\ accessors tm = [] /\
        forall name, find_accessor name (accessors tm) = None) /\
    forall name : string,
      GetProperty h name s = (Ok (VOrdinary h name), s).
Proof.
  split; [right; reflexivity |]. split; [exact wf_example_state |].
  apply (joystick_font_expose_no_fields KFont (Alloc 1) example_state
           example_events); [right; reflexivity | exact wf_example_state].
Defined.

(** ** C6 *)

Lemma cache_inv_initial (m : gmap positive NativeObject) (e : string) :
  cache_inv (initial_state m e).
Proof.
  exists []. split; [constructor |]. split; [reflexivity |].
  intros k i. split; [destruct k; discriminate | intros H; discriminate H].
Qed.

Lemma cache_inv_wf (s : State) : cache_inv s -> wf s.
Proof.
  intros (ks & _ & Ht & Hc) k. unfold cache_ok.
  destruct (cached_template k s) as [i|] eqn:E; [ | exact I ].
  apply Hc in E. rewrite Ht, list_lookup_fmap, E. reflexivity.
Qed.

Lemma cache_inv_wrap_post (k : Kind) (p : ptr) (s : State) :
  cache_inv s -> cache_inv (wrap_post k p s).
Proof.
  intros (ks & Hnd & Ht & Hc).
  destruct (cached_template k s) as [t|] eqn:E.
  - exists ks. split; [exact Hnd |]. split.
    + rewrite wrap_post_templates, E. exact Ht.
    + intros k' i. rewrite wrap_post_cached, E. apply Hc.
  - assert (Hfresh : k ∉ ks).
    { intros Hin. apply list_elem_of_lookup in Hin as [i Hi].
      apply Hc in Hi. congruence. }
    assert (Hlen : length (templates s) = length ks)
      by (rewrite Ht; apply length_fmap).
    exists (ks ++ [k]). split; [ | split ].
    + apply NoDup_app. split; [exact Hnd |]. split.
      * intros x Hx Hx'. apply list_elem_of_singleton in Hx'. congruence.
      * apply NoDup_singleton.
    + rewrite wrap_post_templates, E, Ht, fmap_app. reflexivity.
    + intros k' i. rewrite wrap_post_cached, E, Hlen.
      destruct (decide (k' = k)) as [-> | Hne].
      * split.
        -- intros [= <-]. apply lookup_snoc.
        -- intros Hi. f_equal.
           destruct (decide (i < length ks)%nat) as [Hlt | Hge].
           ++ rewrite lookup_app_l in Hi by exact Hlt.
              exfalso. apply Hfresh. eapply list_elem_of_lookup_2; eauto.
           ++ apply lookup_lt_Some in Hi. rewrite length_app in Hi.
              simpl in Hi. lia.
      * rewrite Hc. split.
        -- intros Hi. now apply lookup_snoc_old.
        -- intros Hi.
           destruct (decide (i < length ks)%nat) as [Hlt | Hge].
           ++ now rewrite lookup_app_l in Hi by exact Hlt.
           ++ rewrite lookup_app_r in Hi by lia.
              destruct (i - length ks)%nat; simpl in Hi; [congruence |].
              discriminate Hi.
Qed.

Lemma cache_inv_same (s s' : State) :
  templates s' = templates s ->
  (forall k, cached_template k s' = cached_template k s) ->
  cache_inv s -> cache_inv s'.
Proof.
  intros Ht Hc (ks & Hnd & Hts & Hcs). exists ks.
  split; [exact Hnd |]. split; [congruence |].
  intros k i. rewrite Hc. apply Hcs.
Qed.

Lemma cache_inv_layer_step (s s' : State) :
  cache_inv s -> layer_step s s' -> cache_inv s'.
Proof.
  intros Hinv H. destruct H as [|k p|msg|msg].
  - exact Hinv.
  - now apply cache_inv_wrap_post.
  - apply (cache_inv_same s); auto.
  - apply (cache_inv_same s); auto.
Qed.

Lemma cache_inv_event (e : Event) (s : State) :
  cache_inv s -> cache_inv (snd (exec_event e s)).
Proof.
  intros Hinv. destruct e as [o|a v|a|err].
  - eapply cache_inv_layer_step; [exact Hinv |].
    apply exec_op_step. now apply cache_inv_wf.
  - apply (cache_inv_same s); auto.
  - apply (cache_inv_same s); auto.
  - apply (cache_inv_same s); auto.
Qed.

Lemma cache_inv_run (es : list Event) (s : State) :
  cache_inv s -> cache_inv (state_after es s).
Proof.
  revert s. induction es as [|e es IH]; intros s Hinv; [exact Hinv |].
  rewrite state_after_cons.
  pose proof (cache_inv_event e s Hinv) as H1.
  destruct (fst (exec_event e s)); [now apply IH | exact H1].
Qed.

(** C6. One template per kind and process.  Building a template always
    appends one entry to the template heap.  In the state [s] reached by any
    run from a fresh process, that heap holds exactly one template for each
    kind of a duplicate-free list, and a static is set exactly for those
    kinds.  A [Wrap k] in [s] succeeds; if the static of [k] is empty it
    appends the template of [k] and caches its handle, otherwise it leaves
    the template heap and the static as they are.  Either way the new
    wrapper is an instance of the cached template, and the static still
    holds that template after any further run. *)
Theorem template_built_at_most_once
        (m : gmap positive NativeObject) (e : string)
        (es es' : list Event) (k : Kind) (p : ptr) :
  let s := state_after es (initial_state m e) in
  let s1 := snd (Wrap k p s) in
  let s2 := state_after es' s1 in
  MakeTemplate k s =
    (Ok (length (templates s)),
     set_templates (templates s ++ [template_of k]) s) /\
  (exists ks : list Kind,
      NoDup ks /\
      templates s = template_of <$> ks /\
      forall k' i, cached_template k' s = Some i <-> ks !! i = Some k') /\
  fst (Wrap k p s) = Ok (length (objects s)) /\
  match cached_template k s with
  | None =>
      templates s1 = templates s ++ [template_of k] /\
      cached_template k s1 = Some (length (templates s))
  | Some t =>
      templates s1 = templates s /\ cached_template k s1 = Some t
  end /\
  exists t,
    cached_template k s1 = Some t /\
    objects s1 !! length (objects s) = Some (JSInstance t [VExternal p]) /\
    cached_template k s2 = Some t /\
    templates s2 !! t = Some (template_of k).
Proof.
  intros s s1 s2.
  assert (Hinv : cache_inv s) by apply cache_inv_run, cache_inv_initial.
  pose proof (cache_inv_wf s Hinv) as Hwf.
  assert (Hs1 : s1 = wrap_post k p s)
    by (unfold s1; now rewrite Wrap_eq by exact Hwf).
  split; [apply MakeTemplate_eq |]. split; [exact Hinv |].
  split; [now rewrite Wrap_eq by exact Hwf |].
  split.
  - rewrite Hs1, wrap_post_templates, wrap_post_cached.
    destruct (cached_template k s) as [t|] eqn:E; [split; reflexivity |].
    split; [reflexivity |]. now destruct (decide (k = k)).
  - pose proof (wrap_post_wf k p s Hwf) as Hwf1. rewrite <- Hs1 in Hwf1.
    exists (default (length (templates s)) (cached_template k s)).
    assert (Hc1 : cached_template k s1 =
                  Some (default (length (templates s)) (cached_template k s))).
    { rewrite Hs1, wrap_post_cached.
      destruct (cached_template k s); [reflexivity |].
      now destruct (decide (k = k)). }
    split; [exact Hc1 |]. split.
    + rewrite Hs1, wrap_post_objects. apply lookup_snoc.
    + destruct (run_inv es' s1 Hwf1) as [Hwf2 (_ & _ & Hkeep)].
      fold s2 in Hwf2. pose proof (Hkeep _ _ Hc1) as Hc2. fold s2 in Hc2.
      split; [exact Hc2 |].
      pose proof (Hwf2 k) as Hk. unfold cache_ok in Hk.
      now rewrite Hc2 in Hk.
Qed.

(** ** C7 *)

Lemma frame_ret {A} (a : A) : frame (ret a).
Proof. intros s. reflexivity. Qed.

Lemma frame_fault {A} : frame (@fault A).
Proof. intros s. reflexivity. Qed.

Lemma frame_get_state : frame get_state.
Proof. intros s. reflexivity. Qed.

Lemma frame_lift_option {A} (o : option A) : frame (lift_option o).
Proof. destruct o; intros s; reflexivity. Qed.

Lemma frame_bind {A B} (m : M A) (k : A -> M B) :
  frame m -> (forall a, frame (k a)) -> frame (bind m k).
Proof.
  intros Hm Hk s. unfold bind. specialize (Hm s).
  destruct (m s) as [[a|] s1]; simpl in *; [ | exact Hm ].
  rewrite (Hk a s1). exact Hm.
Qed.

Lemma frame_modify (f : State -> State) :
  (forall s, native (f s) = native s) -> frame (modify f).
Proof. intros H s. apply H. Qed.

Create HintDb frame.
#[local] Hint Resolve frame_ret frame_fault frame_get_state
  frame_lift_option : frame.

Ltac frame_step :=
  first
    [ solve [ auto with frame ]
    | apply frame_bind; [ | intros ? ]
    | apply frame_modify; intros ?; reflexivity
    | match goal with
      | |- frame (match ?x with _ => _ end) => destruct x
      end ].

Ltac frame_auto := repeat frame_step.

Lemma frame_ObjectTemplate_New : frame ObjectTemplate_New.
Proof. unfold ObjectTemplate_New. frame_auto. Qed.

Lemma frame_SetInternalFieldCount t n : frame (SetInternalFieldCount t n).
Proof. unfold SetInternalFieldCount. frame_auto. Qed.

Lemma frame_SetAccessor t name g : frame (SetAccessor t name g).
Proof. unfold SetAccessor. frame_auto. Qed.

Lemma frame_NewInstance t : frame (NewInstance t).
Proof. unfold NewInstance. frame_auto. Qed.

Lemma frame_SetInternalField obj i v : frame (SetInternalField obj i v).
Proof. unfold SetInternalField. frame_auto. Qed.

Lemma frame_GetInternalField obj i : frame (GetInternalField obj i).
Proof. unfold GetInternalField. frame_auto. Qed.

Lemma frame_External_Value v : frame (External_Value v).
Proof. unfold External_Value. frame_auto. Qed.

#[local] Hint Resolve frame_ObjectTemplate_New frame_SetInternalFieldCount
  frame_SetAccessor frame_NewInstance frame_SetInternalField
  frame_GetInternalField frame_External_Value : frame.

Lemma frame_MakeTemplate k : frame (MakeTemplate k).
Proof.
  destruct k; unfold MakeTemplate, MakeSurfaceTemplate, MakeRectTemplate,
    MakePixelFormatTemplate, MakeJoystickTemplate, MakeFontTemplate;
    frame_auto.
Qed.

Lemma frame_Unwrap k obj : frame (Unwrap k obj).
Proof.
  destruct k; unfold Unwrap, UnwrapSurface, UnwrapRect, UnwrapPixelFormat,
    UnwrapJoystick, UnwrapFont; frame_auto.
Qed.

Lemma frame_Wrap k p : frame (Wrap k p).
Proof.
  destruct k; unfold Wrap, WrapSurface, WrapRect, WrapPixelFormat,
    WrapJoystick, WrapFont, External_New; frame_auto.
  all: first [ apply (frame_MakeTemplate KSurface)
             | apply (frame_MakeTemplate KRect)
             | apply (frame_MakeTemplate KPixelFormat)
             | apply (frame_MakeTemplate KJoystick)
             | apply (frame_MakeTemplate KFont) ].
Qed.

Lemma frame_call_getter g name info : frame (call_getter g name info).
Proof.
  destruct g; unfold_getters;
    unfold read_surface, read_rect, read_format, Number_New; frame_auto.
  all: first [ apply (frame_Unwrap KSurface)
             | apply (frame_Unwrap KRect)
             | apply (frame_Unwrap KPixelFormat)
             | apply (frame_Wrap KRect)
             | apply (frame_Wrap KPixelFormat) ].
Qed.

Lemma frame_GetProperty obj name : frame (GetProperty obj name).
Proof.
  unfold GetProperty. frame_auto. apply frame_call_getter.
Qed.

Lemma frame_MakeSDLException name : frame (MakeSDLException name).
Proof.
  unfold MakeSDLException, String_New, String_Concat, SDL_GetError,
    Exception_Error. frame_auto.
Qed.

#[local] Hint Resolve frame_MakeSDLException : frame.

Lemma frame_ThrowSDLException name : frame (ThrowSDLException name).
Proof. unfold ThrowSDLException, ThrowException. frame_auto. Qed.

Lemma frame_exec_op o : frame (exec_op o).
Proof.
  destruct o; unfold exec_op; frame_auto;
    auto using frame_Wrap, frame_Unwrap, frame_GetProperty,
      frame_call_getter, frame_MakeSDLException, frame_ThrowSDLException.
Qed.

Lemma frame_exec_ops os : frame (exec_ops os).
Proof.
  induction os as [|o os IH]; simpl; frame_auto;
    auto using frame_exec_op.
Qed.

(** C7. Frame: whatever sequence of calls into this layer is made (wraps,
    unwraps, property reads, direct accessor calls, the error helpers) from
    whatever state, and whether it runs to the end or faults on the way,
    native memory afterwards is the memory before: no address was stored
    to, none was released, and every struct reads as before. *)
Theorem layer_leaves_native_memory_alone (os : list Op) (s : State) :
  let s' := snd (exec_ops os s) in
  native s' = native s /\
  dom (native s') = dom (native s) /\
  forall p : ptr,
    deref_surface (native s') p = deref_surface (native s) p /\
    deref_rect (native s') p = deref_rect (native s) p /\
    deref_format (native s') p = deref_format (native s) p.
Proof.
  intros s'. assert (H : native s' = native s) by apply frame_exec_ops.
  rewrite H. repeat split.
Qed.

(** * Further properties of [helpers.cc] *)

(** ** The footprint of a wrap *)

(** X1. [WrapSurface], [WrapRect], [WrapPixelFormat], [WrapJoystick],
    [WrapFont]: in a well-formed state a wrap returns a handle that was
    free before and appends exactly one object, the new wrapper; it leaves
    native memory, the SDL error string, the pending exception and the
    statics of all other kinds as they were. *)
Theorem wrap_footprint (k : Kind) (p : ptr) (s : State) :
  wf s ->
  let h := length (objects s) in
  let s' := snd (Wrap k p s) in
  fst (Wrap k p s) = Ok h /\
  objects s !! h = None /\
  (exists t, objects s' = objects s ++ [JSInstance t [VExternal p]]) /\
  native s' = native s /\
  sdl_error s' = sdl_error s /\
  pending_exception s' = pending_exception s /\
  forall k', k' <> k -> cached_template k' s' = cached_template k' s.
Proof.
  intros Hwf h s'. unfold s'. rewrite Wrap_eq by exact Hwf. simpl.
  destruct (wrap_post_native k p s) as (Hn & He & Hp).
  split; [reflexivity |].
  split; [apply lookup_ge_None_2; unfold h; lia |].
  split; [eexists; apply wrap_post_objects |].
  split; [exact Hn |]. split; [exact He |]. split; [exact Hp |].
  intros k' Hne. rewrite wrap_post_cached.
  destruct (cached_template k s); [reflexivity |].
  destruct (decide (k' = k)); [contradiction | reflexivity].
Qed.

Lemma wrap_footprint_witness :
  wf example_state /\
  let h := length (objects example_state) in
  let s' := snd (Wrap KSurface (Alloc 1) example_state) in
  fst (Wrap KSurface (Alloc 1) example_state) = Ok h /\
  objects example_state !! h = None /\
  (exists t, objects s' =
             objects example_state ++ [JSInstance t [VExternal (Alloc 1)]]) /\
  native s' = native example_state /\
  sdl_error s' = sdl_error example_state /\
  pending_exception s' = pending_exception example_state /\
  forall k', k' <> KSurface ->
             cached_template k' s' = cached_template k' example_state.
Proof.
  split; [exact wf_example_state |].
  apply (wrap_footprint KSurface (Alloc 1) example_state wf_example_state).
Defined.

(** ** Existing objects are never touched *)

(** X2. No call into this layer, and nothing the native library does, changes
    or removes an object or a template that is already on the host heaps,
    re-points an initialised static, or changes the pointer a wrapper
    holds: the heaps only grow. *)
Theorem host_heaps_only_grow (s : State) (es : list Event) :
  wf s ->
  let s' := state_after es s in
  (forall h o, objects s !! h = Some o -> objects s' !! h = Some o) /\
  (forall t tm, templates s !! t = Some tm -> templates s' !! t = Some tm) /\
  (forall k t, cached_template k s = Some t ->
               cached_template k s' = Some t) /\
  (forall h p, stored_pointer s h = Some p -> stored_pointer s' h = Some p) /\
  (length (objects s) <= length (objects s'))%nat.
Proof.
  intros Hwf s'. destruct (run_inv es s Hwf) as [_ (Ho & Ht & Hc)].
  fold s' in Ho, Ht, Hc.
  split; [exact Ho |]. split; [exact Ht |]. split; [exact Hc |]. split.
  - intros h p. unfold stored_pointer.
    destruct (objects s !! h) as [o|] eqn:E; [ | discriminate ].
    rewrite (Ho _ _ E). auto.
  - destruct (decide (length (objects s) = 0%nat)) as [E|E]; [lia |].
    destruct (lookup_lt_is_Some_2 (objects s) (length (objects s) - 1))
      as [o Ho']; [lia |].
    apply Ho in Ho'. apply lookup_lt_Some in Ho'. lia.
Qed.

Lemma host_heaps_only_grow_witness :
  wf (snd (Wrap KRect (Alloc 3) example_state)) /\
  let s := snd (Wrap KRect (Alloc 3) example_state) in
  let s' := state_after
              (Call (OpWrap KSurface (Alloc 1))
                 :: Call (OpThrowSDLException "x") :: example_events) s in
  (forall h o, objects s !! h = Some o -> objects s' !! h = Some o) /\
  (forall t tm, templates s !! t = Some tm -> templates s' !! t = Some tm) /\
  (forall k t, cached_template k s = Some t ->
               cached_template k s' = Some t) /\
  (forall h p, stored_pointer s h = Some p -> stored_pointer s' h = Some p) /\
  (length (objects s) <= length (objects s'))%nat.
Proof.
  assert (H : wf (snd (Wrap KRect (Alloc 3) example_state))).
  { rewrite Wrap_eq by exact wf_example_state.
    apply wrap_post_wf, wf_example_state. }
  split; [exact H |].
  apply (host_heaps_only_grow _ _ H).
Defined.

(** ** The shape of the object heap *)

Lemma heap_shape_layer_step (s s' : State) :
  wf s -> heap_shape s -> layer_step s s' -> heap_shape s'.
Proof.
  intros Hwf Hs Hstep.
  pose proof (layer_step_extends _ _ Hstep) as (_ & Ht & _).
  destruct Hstep as [|k p|msg|msg]; [exact Hs | | | ].
  - intros h t fs Hh. rewrite wrap_post_objects in Hh.
    apply lookup_app_Some in Hh as [Hold | [Hge Hnew]].
    + destruct (Hs _ _ _ Hold) as (q & k' & -> & Hk').
      exists q, k'. split; [reflexivity | now apply Ht].
    + destruct (h - length (objects s))%nat; simpl in Hnew; [ | discriminate ].
      injection Hnew as <- <-. exists p, k. split; [reflexivity |].
      pose proof (Hwf k) as Hk. unfold cache_ok in Hk.
      rewrite wrap_post_templates.
      destruct (cached_template k s); simpl; [exact Hk | apply lookup_snoc].
  - intros h t fs Hh. simpl in Hh.
    apply lookup_app_Some in Hh as [Hold | [Hge Hnew]];
      [exact (Hs _ _ _ Hold) |].
    destruct (h - length (objects s))%nat; simpl in Hnew; discriminate.
  - intros h t fs Hh. simpl in Hh.
    apply lookup_app_Some in Hh as [Hold | [Hge Hnew]];
      [exact (Hs _ _ _ Hold) |].
    destruct (h - length (objects s))%nat; simpl in Hnew; discriminate.
Qed.

Lemma heap_shape_event (e : Event) (s : State) :
  wf s -> heap_shape s -> heap_shape (snd (exec_event e s)).
Proof.
  intros Hwf Hs. destruct e as [o|a v|a|err]; [ | exact Hs | exact Hs | exact Hs ].
  eapply heap_shape_layer_step; [exact Hwf | exact Hs |].
  now apply exec_op_step.
Qed.

Lemma heap_shape_run (es : list Event) (s : State) :
  wf s -> heap_shape s -> heap_shape (state_after es s).
Proof.
  revert s. induction es as [|e es IH]; intros s Hwf Hs; [exact Hs |].
  rewrite state_after_cons.
  pose proof (heap_shape_event e s Hwf Hs) as H1.
  destruct (exec_event_inv e s Hwf) as [Hwf1 _].
  destruct (fst (exec_event e s)); [now apply IH | exact H1].
Qed.

(** X3. In a process that starts fresh, whatever it does, every template
    instance on the object heap is a wrapper made by this file: it has
    exactly one internal field, that field holds an [External], its
    template is one of the five, and unwrapping it at any kind returns the
    held pointer without a fault. *)
Theorem every_instance_is_a_wrapper
        (m : gmap positive NativeObject) (e : string) (es : list Event)
        (h t : nat) (fs : list Value) :
  let s := state_after es (initial_state m e) in
  objects s !! h = Some (JSInstance t fs) ->
  exists p k,
    fs = [VExternal p] /\
    templates s !! t = Some (template_of k) /\
    internal_field_count (template_of k) = 1%nat /\
    forall k', Unwrap k' h s = (Ok p, s).
Proof.
  intros s Hh.
  assert (Hs : heap_shape s).
  { apply heap_shape_run; [apply wf_initial |].
    intros h' t' fs' H. discriminate H. }
  destruct (Hs _ _ _ Hh) as (p & k & -> & Hk).
  exists p, k. split; [reflexivity |]. split; [exact Hk |].
  split; [destruct k; reflexivity |].
  intros k'. rewrite Unwrap_eq. unfold stored_pointer. now rewrite Hh.
Qed.

Lemma every_instance_is_a_wrapper_witness :
  let s := state_after
             [Call (OpWrap KSurface (Alloc 1));
              Call (OpGetProperty 0 "clip_rect")]
             (initial_state example_memory "") in
  objects s !! 1%nat = Some (JSInstance 1 [VExternal (ClipRectOf (Alloc 1))]) /\
  exists p k,
    [VExternal (ClipRectOf (Alloc 1))] = [VExternal p] /\
    templates s !! 1%nat = Some (template_of k) /\
    internal_field_count (template_of k) = 1%nat /\
    forall k', Unwrap k' 1 s = (Ok p, s).
Proof.
  intros s.
  assert (H : objects s !! 1%nat =
              Some (JSInstance 1 [VExternal (ClipRectOf (Alloc 1))]))
    by (vm_compute; reflexivity).
  split; [exact H |].
  exact (every_instance_is_a_wrapper example_memory ""
           [Call (OpWrap KSurface (Alloc 1));
            Call (OpGetProperty 0 "clip_rect")]
           1%nat 1%nat _ H).
Defined.

(** ** How many templates a process builds *)

Lemma elem_of_all_kinds (k : Kind) : k ∈ all_kinds.
Proof. unfold all_kinds. destruct k; set_solver. Qed.

Lemma NoDup_all_kinds : NoDup all_kinds.
Proof.
  unfold all_kinds. apply (bool_decide_unpack _). reflexivity.
Qed.

Lemma NoDup_kinds_length (ks : list Kind) : NoDup ks -> (length ks <= 5)%nat.
Proof.
  intros Hnd. change 5%nat with (length all_kinds).
  apply submseteq_length, NoDup_submseteq; [exact Hnd |].
  intros k _. apply elem_of_all_kinds.
Qed.

(** X4. In a process that starts fresh, whatever it does, the template heap
    never holds more than five templates, and it holds exactly as many as
    there are initialised statics. *)
Theorem at_most_five_templates
        (m : gmap positive NativeObject) (e : string) (es : list Event) :
  let s := state_after es (initial_state m e) in
  (length (templates s) <= 5)%nat /\
  length (templates s) =
  length (filter (fun k => is_Some (cached_template k s)) all_kinds).
Proof.
  intros s.
  destruct (cache_inv_run es _ (cache_inv_initial m e))
    as (ks & Hnd & Ht & Hc). fold s in Ht, Hc.
  rewrite Ht, length_fmap. split; [now apply NoDup_kinds_length |].
  apply Permutation_length, NoDup_Permutation; [exact Hnd | | ].
  - apply NoDup_filter, NoDup_all_kinds.
  - intros k. rewrite list_elem_of_filter. split.
    + intros Hin. split.
      * apply list_elem_of_lookup in Hin as [i Hi]. apply Hc in Hi.
        rewrite Hi. eauto.
      * apply elem_of_all_kinds.
    + intros [[i Hi] _]. apply Hc in Hi.
      eapply list_elem_of_lookup_2; eauto.
Qed.

(** X5. In a process that starts fresh, two different kinds never share a
    template: the Joystick and the Font template, equal in content, are
    still two templates. *)
Theorem statics_hold_distinct_templates
        (m : gmap positive NativeObject) (e : string) (es : list Event)
        (k k' : Kind) (t t' : nat) :
  let s := state_after es (initial_state m e) in
  cached_template k s = Some t ->
  cached_template k' s = Some t' ->
  k <> k' -> t <> t'.
Proof.
  intros s Hk Hk' Hne Heq. subst t'.
  destruct (cache_inv_run es _ (cache_inv_initial m e))
    as (ks & _ & _ & Hc). fold s in Hc.
  apply Hc in Hk, Hk'. congruence.
Qed.

Lemma statics_hold_distinct_templates_witness :
  let s := state_after
             [Call (OpWrap KJoystick NULL); Call (OpWrap KFont NULL)]
             (initial_state ∅ "") in
  cached_template KJoystick s = Some 0%nat /\
  cached_template KFont s = Some 1%nat /\
  KJoystick <> KFont /\ 0%nat <> 1%nat.
Proof.
  intros s.
  assert (H1 : cached_template KJoystick s = Some 0%nat) by reflexivity.
  assert (H2 : cached_template KFont s = Some 1%nat) by reflexivity.
  assert (H3 : KJoystick <> KFont) by discriminate.
  repeat split; try assumption.
  exact (statics_hold_distinct_templates ∅ ""
           [Call (OpWrap KJoystick NULL); Call (OpWrap KFont NULL)]
           KJoystick KFont 0%nat 1%nat H1 H2 H3).
Defined.

(** ** Reading the nested properties *)

Lemma read_clip_rect_eq (h : nat) (p : ptr) (s : State) :
  wf s -> is_wrapper KSurface s h p ->
  GetProperty h "clip_rect" s =
  (Ok (VObject (length (objects s))), wrap_post KRect (ClipRectOf p) s).
Proof.
  intros Hwf Hw. rewrite (GetProperty_wrapper _ _ _ _ _ Hw). simpl.
  rewrite GetSurfaceRect_eq by exact Hwf. simpl.
  now rewrite (is_wrapper_stored _ _ _ _ Hw).
Qed.

Lemma read_format_eq (h : nat) (p : ptr) (s : State) (sf : SDL_Surface) :
  wf s -> is_wrapper KSurface s h p ->
  deref_surface (native s) p = Some sf ->
  GetProperty h "format" s =
  (Ok (VObject (length (objects s))), wrap_post KPixelFormat (format sf) s).
Proof.
  intros Hwf Hw Hd. rewrite (GetProperty_wrapper _ _ _ _ _ Hw). simpl.
  rewrite GetSurfaceFormat_eq by exact Hwf. simpl.
  now rewrite (is_wrapper_stored _ _ _ _ Hw), Hd.
Qed.

(** X6. [GetSurfaceRect] wraps the address of the rectangle inside the surface,
    not a copy of it: the Rect wrapper that a read of "clip_rect" returned
    is a live view.  After any later run, in which the native library may
    have rewritten the surface, its "x", "y", "w" and "h" read the fields
    of the surface's clip rectangle as it is then. *)
Theorem clip_rect_wrapper_is_live_view
        (p : ptr) (s0 : State) (h : nat) (s1 : State)
        (es es' : list Event) (w : nat) (s' : State) (sf : SDL_Surface) :
  wf s0 ->
  WrapSurface p s0 = (Ok h, s1) ->
  GetProperty h "clip_rect" (state_after es s1) = (Ok (VObject w), s') ->
  deref_surface (native (state_after es' s')) p = Some sf ->
  let s'' := state_after es' s' in
  GetProperty w "x" s'' = (Ok (VNumber (rect_x (clip_rect sf))), s'') /\
  GetProperty w "y" s'' = (Ok (VNumber (rect_y (clip_rect sf))), s'') /\
  GetProperty w "w" s'' = (Ok (VNumber (rect_w (clip_rect sf))), s'') /\
  GetProperty w "h" s'' = (Ok (VNumber (rect_h (clip_rect sf))), s'').
Proof.
  intros Hwf HW HR Hd s''.
  change (Wrap KSurface p s0 = (Ok h, s1)) in HW.
  destruct (Wrap_inv _ _ _ _ _ es Hwf HW) as [Hwfs Hw].
  rewrite (read_clip_rect_eq _ _ _ Hwfs Hw) in HR.
  injection HR as <- <-.
  destruct (wrapper_survives KRect (ClipRectOf p) _ es' Hwfs) as [_ Hw'].
  fold s'' in Hw', Hd.
  rewrite !(GetProperty_wrapper _ _ _ _ _ Hw'). simpl.
  rewrite GetRectX_eq, GetRectY_eq, GetRectW_eq, GetRectH_eq.
  unfold project_rect. simpl.
  rewrite (is_wrapper_stored _ _ _ _ Hw'). simpl. rewrite Hd.
  repeat split.
Qed.

Lemma clip_rect_wrapper_is_live_view_witness :
  wf example_state /\
  WrapSurface (Alloc 1) example_state =
    (Ok 0%nat, snd (WrapSurface (Alloc 1) example_state)) /\
  let s' := snd (GetProperty 0 "clip_rect"
                   (snd (WrapSurface (Alloc 1) example_state))) in
  let s'' := state_after example_events s' in
  GetProperty 1 "x" s'' = (Ok (VNumber 0), s'') /\
  GetProperty 1 "y" s'' = (Ok (VNumber 0), s'') /\
  GetProperty 1 "w" s'' = (Ok (VNumber 800), s'') /\
  GetProperty 1 "h" s'' = (Ok (VNumber 600), s'').
Proof.
  split; [exact wf_example_state |]. split; [vm_compute; reflexivity |].
  apply (clip_rect_wrapper_is_live_view (Alloc 1) example_state 0%nat
           (snd (WrapSurface (Alloc 1) example_state)) [] example_events
           1%nat _
           (mkSurface 9 (Alloc 2) 800 600 1600 (mkRect 0 0 800 600))
           wf_example_state);
    vm_compute; reflexivity.
Defined.

(** X7. [GetSurfaceFormat] and [GetSurfaceRect] call a [Wrap...] on every read:
    nothing remembers the wrapper of an earlier read.  Reading "clip_rect"
    twice on a Surface wrapper returns two different objects that hold the
    same address, and reading "format" twice, while the surface is valid,
    returns two different objects that hold the same format pointer; each
    read adds one object, and the second read builds no template. *)
Theorem nested_reads_return_fresh_wrappers
        (p : ptr) (s0 : State) (h : nat) (s1 : State) (es : list Event) :
  wf s0 ->
  WrapSurface p s0 = (Ok h, s1) ->
  let s := state_after es s1 in
  (exists w1 sa w2 sb,
      GetProperty h "clip_rect" s = (Ok (VObject w1), sa) /\
      GetProperty h "clip_rect" sa = (Ok (VObject w2), sb) /\
      w1 <> w2 /\
      stored_pointer sb w1 = Some (ClipRectOf p) /\
      stored_pointer sb w2 = Some (ClipRectOf p) /\
      length (objects sb) = (length (objects s) + 2)%nat /\
      templates sb = templates sa) /\
  (forall sf,
      deref_surface (native s) p = Some sf ->
      exists w1 sa w2 sb,
        GetProperty h "format" s = (Ok (VObject w1), sa) /\
        GetProperty h "format" sa = (Ok (VObject w2), sb) /\
        w1 <> w2 /\
        stored_pointer sb w1 = Some (format sf) /\
        stored_pointer sb w2 = Some (format sf) /\
        length (objects sb) = (length (objects s) + 2)%nat /\
        templates sb = templates sa).
Proof.
  intros Hwf HW s.
  change (Wrap KSurface p s0 = (Ok h, s1)) in HW.
  destruct (Wrap_inv _ _ _ _ _ es Hwf HW) as [Hwfs Hw]. fold s in Hwfs, Hw.
  assert (Hgen : forall k q,
    let sa := wrap_post k q s in
    let sb := wrap_post k q sa in
    wf sa /\ is_wrapper KSurface sa h p /\
    length (objects s) <> length (objects sa) /\
    stored_pointer sb (length (objects s)) = Some q /\
    stored_pointer sb (length (objects sa)) = Some q /\
    length (objects sb) = (length (objects s) + 2)%nat /\
    templates sb = templates sa).
  { intros k q sa sb.
    pose proof (wrap_post_wf k q s Hwfs) as Hwfa. fold sa in Hwfa.
    pose proof (wrap_post_is_wrapper k q s Hwfs) as Hwa. fold sa in Hwa.
    pose proof (wrap_post_is_wrapper k q sa Hwfa) as Hwb. fold sb in Hwb.
    assert (Hla : length (objects sa) = S (length (objects s))).
    { unfold sa. rewrite wrap_post_objects, length_app. simpl. lia. }
    split; [exact Hwfa |]. split.
    { eapply is_wrapper_extends; [ | exact Hw ].
      apply layer_step_extends, step_wrap. }
    split; [rewrite Hla; lia |]. split.
    { apply (is_wrapper_stored k).
      eapply is_wrapper_extends; [ | exact Hwa ].
      apply layer_step_extends, step_wrap. }
    split; [now apply (is_wrapper_stored k) |]. split.
    { unfold sb. rewrite wrap_post_objects, length_app, Hla. simpl. lia. }
    unfold sb. rewrite wrap_post_templates.
    destruct (cached_template k sa) eqn:E; [reflexivity |].
    exfalso. unfold sa in E. rewrite wrap_post_cached in E.
    destruct (cached_template k s); [discriminate |].
    destruct (decide (k = k)); [discriminate | congruence]. }
  split.
  - destruct (Hgen KRect (ClipRectOf p)) as (Hwfa & Hwa & Hne & H1 & H2 & H3 & H4).
    exists (length (objects s)), (wrap_post KRect (ClipRectOf p) s),
      (length (objects (wrap_post KRect (ClipRectOf p) s))),
      (wrap_post KRect (ClipRectOf p) (wrap_post KRect (ClipRectOf p) s)).
    split; [exact (read_clip_rect_eq _ _ _ Hwfs Hw) |].
    split; [exact (read_clip_rect_eq _ _ _ Hwfa Hwa) |].
    repeat split; assumption.
  - intros sf Hd.
    destruct (Hgen KPixelFormat (format sf))
      as (Hwfa & Hwa & Hne & H1 & H2 & H3 & H4).
    exists (length (objects s)), (wrap_post KPixelFormat (format sf) s),
      (length (objects (wrap_post KPixelFormat (format sf) s))),
      (wrap_post KPixelFormat (format sf)
         (wrap_post KPixelFormat (format sf) s)).
    split; [exact (read_format_eq _ _ _ _ Hwfs Hw Hd) |].
    split.
    { apply (read_format_eq _ p); try assumption.
      destruct (wrap_post_native KPixelFormat (format sf) s) as (-> & _).
      exact Hd. }
    repeat split; assumption.
Qed.

Lemma nested_reads_return_fresh_wrappers_witness :
  wf example_state /\
  WrapSurface (Alloc 1) example_state =
    (Ok 0%nat, snd (WrapSurface (Alloc 1) example_state)) /\
  let s := state_after example_events
             (snd (WrapSurface (Alloc 1) example_state)) in
  (exists w1 sa w2 sb,
      GetProperty 0 "clip_rect" s = (Ok (VObject w1), sa) /\
      GetProperty 0 "clip_rect" sa = (Ok (VObject w2), sb) /\
      w1 <> w2 /\
      stored_pointer sb w1 = Some (ClipRectOf (Alloc 1)) /\
      stored_pointer sb w2 = Some (ClipRectOf (Alloc 1)) /\
      length (objects sb) = (length (objects s) + 2)%nat /\
      templates sb = templates sa) /\
  (forall sf,
      deref_surface (native s) (Alloc 1) = Some sf ->
      exists w1 sa w2 sb,
        GetProperty 0 "format" s = (Ok (VObject w1), sa) /\
        GetProperty 0 "format" sa = (Ok (VObject w2), sb) /\
        w1 <> w2 /\
        stored_pointer sb w1 = Some (format sf) /\
        stored_pointer sb w2 = Some (format sf) /\
        length (objects sb) = (length (objects s) + 2)%nat /\
        templates sb = templates sa).
Proof.
  split; [exact wf_example_state |]. split; [vm_compute; reflexivity |].
  apply (nested_reads_return_fresh_wrappers (Alloc 1) example_state 0%nat
           _ example_events wf_example_state).
  vm_compute; reflexivity.
Defined.

(** ** Names without an accessor *)

Lemma find_accessor_None (name : string)
      (l : list (string * AccessorGetter)) :
  name ∉ (fst <$> l) -> find_accessor name l = None.
Proof.
  induction l as [|[n g] l IH]; intros Hn; [reflexivity |].
  simpl. rewrite fmap_cons in Hn. apply not_elem_of_cons in Hn as [Hne Hn].
  simpl in Hne. destruct (decide (n = name)); [congruence | now apply IH].
Qed.

(** The names in the accessor table of each template are the names its
    [Make...Template] registers. *)
Lemma accessor_names (k : Kind) :
  fst <$> accessors (template_of k) = reverse (property_names k).
Proof. destruct k; reflexivity. Qed.

(** X8. [MakeSurfaceTemplate], [MakeRectTemplate], [MakePixelFormatTemplate]
    register the names "flags", "format", "w", "h", "pitch", "clip_rect";
    "x", "y", "w", "h"; "bitsPerPixel", "bytesPerPixel", "colorkey",
    "alpha" and no others.  A read of any other name on a wrapper (for
    instance "width" or "toString" on a Surface) calls no accessor of this
    file: it is left to the host's ordinary lookup, changes nothing and
    does not look at the wrapped pointer, so it cannot fault even on a
    wrapper of a null pointer. *)
Theorem unregistered_name_calls_no_accessor
        (k : Kind) (p : ptr) (s0 : State) (h : nat) (s1 : State)
        (es : list Event) (name : string) :
  wf s0 ->
  Wrap k p s0 = (Ok h, s1) ->
  name ∉ property_names k ->
  let s := state_after es s1 in
  (exists t tm,
      objects s !! h = Some (JSInstance t [VExternal p]) /\
      templates s !! t = Some tm /\
      find_accessor name (accessors tm) = None) /\
  GetProperty h name s = (Ok (VOrdinary h name), s).
Proof.
  intros Hwf HW Hn s.
  destruct (Wrap_inv _ _ _ _ _ es Hwf HW) as [_ Hw]. fold s in Hw.
  assert (Hf : find_accessor name (accessors (template_of k)) = None).
  { apply find_accessor_None.
    rewrite accessor_names, elem_of_reverse. exact Hn. }
  split.
  - destruct Hw as (t & Ho & Ht). exists t, (template_of k). auto.
  - rewrite (GetProperty_wrapper _ _ _ _ _ Hw), Hf. reflexivity.
Qed.

Lemma unregistered_name_calls_no_accessor_witness :
  wf example_state /\
  Wrap KSurface NULL example_state =
    (Ok 0%nat, snd (Wrap KSurface NULL example_state)) /\
  ("toString" ∉ property_names KSurface) /\
  let s := state_after example_events
             (snd (Wrap KSurface NULL example_state)) in
  (exists t tm,
      objects s !! 0%nat = Some (JSInstance t [VExternal NULL]) /\
      templates s !! t = Some tm /\
      find_accessor "toString" (accessors tm) = None) /\
  GetProperty 0 "toString" s = (Ok (VOrdinary 0 "toString"), s).
Proof.
  assert (Hn : "toString" ∉ property_names KSurface).
  { intros H. apply list_elem_of_In in H. simpl in H.
    repeat (destruct H as [H | H]; [discriminate H |]). exact H. }
  assert (HW : Wrap KSurface NULL example_state =
               (Ok 0%nat, snd (Wrap KSurface NULL example_state)))
    by (vm_compute; reflexivity).
  split; [exact wf_example_state |]. split; [exact HW |].
  split; [exact Hn |].
  exact (unregistered_name_calls_no_accessor KSurface NULL example_state
           0%nat _ example_events "toString" wf_example_state HW Hn).
Defined.

(** ** A property read can build another kind's template *)

(** X10. The wrapper kinds are not independent: [GetSurfaceFormat] calls
    [WrapPixelFormat] and [GetSurfaceRect] calls [WrapRect].  If the
    PixelFormat static is still empty, the first read of "format" on a
    valid surface builds the PixelFormat template and caches it; if the
    Rect static is still empty, the first read of "clip_rect" builds and
    caches the Rect template.  The Surface static is left as it is. *)
Theorem nested_read_initialises_template
        (p : ptr) (s0 : State) (h : nat) (s1 : State) (es : list Event) :
  wf s0 ->
  WrapSurface p s0 = (Ok h, s1) ->
  let s := state_after es s1 in
  (forall sf,
      deref_surface (native s) p = Some sf ->
      cached_template KPixelFormat s = None ->
      let s' := snd (GetProperty h "format" s) in
      templates s' = templates s ++ [template_of KPixelFormat] /\
      cached_template KPixelFormat s' = Some (length (templates s)) /\
      cached_template KSurface s' = cached_template KSurface s) /\
  (cached_template KRect s = None ->
   let s' := snd (GetProperty h "clip_rect" s) in
   templates s' = templates s ++ [template_of KRect] /\
   cached_template KRect s' = Some (length (templates s)) /\
   cached_template KSurface s' = cached_template KSurface s).
Proof.
  intros Hwf HW s.
  change (Wrap KSurface p s0 = (Ok h, s1)) in HW.
  destruct (Wrap_inv _ _ _ _ _ es Hwf HW) as [Hwfs Hw]. fold s in Hwfs, Hw.
  split.
  - intros sf Hd Hc s'. unfold s'.
    rewrite (read_format_eq _ _ _ _ Hwfs Hw Hd). cbn [snd].
    rewrite wrap_post_templates, !wrap_post_cached, Hc. repeat split.
  - intros Hc s'. unfold s'.
    rewrite (read_clip_rect_eq _ _ _ Hwfs Hw). cbn [snd].
    rewrite wrap_post_templates, !wrap_post_cached, Hc. repeat split.
Qed.

Lemma nested_read_initialises_template_witness :
  wf example_state /\
  WrapSurface (Alloc 1) example_state =
    (Ok 0%nat, snd (WrapSurface (Alloc 1) example_state)) /\
  let s := state_after [] (snd (WrapSurface (Alloc 1) example_state)) in
  deref_surface (native s) (Alloc 1) =
    Some (mkSurface 7 (Alloc 2) 640 480 1280 (mkRect 0 0 640 480)) /\
  cached_template KPixelFormat s = None /\
  cached_template KRect s = None /\
  (let s' := snd (GetProperty 0 "format" s) in
   templates s' = templates s ++ [template_of KPixelFormat] /\
   cached_template KPixelFormat s' = Some (length (templates s)) /\
   cached_template KSurface s' = cached_template KSurface s) /\
  (let s' := snd (GetProperty 0 "clip_rect" s) in
   templates s' = templates s ++ [template_of KRect] /\
   cached_template KRect s' = Some (length (templates s)) /\
   cached_template KSurface s' = cached_template KSurface s).
Proof.
  assert (HW : WrapSurface (Alloc 1) example_state =
               (Ok 0%nat, snd (WrapSurface (Alloc 1) example_state)))
    by (vm_compute; reflexivity).
  destruct (nested_read_initialises_template (Alloc 1) example_state 0%nat
              _ [] wf_example_state HW) as [HF HR].
  split; [exact wf_example_state |]. split; [exact HW |].
  intros s.
  assert (Hd : deref_surface (native s) (Alloc 1) =
               Some (mkSurface 7 (Alloc 2) 640 480 1280 (mkRect 0 0 640 480)))
    by (vm_compute; reflexivity).
  assert (Hc1 : cached_template KPixelFormat s = None) by reflexivity.
  assert (Hc2 : cached_template KRect s = None) by reflexivity.
  split; [exact Hd |]. split; [exact Hc1 |]. split; [exact Hc2 |].
  split; [exact (HF _ Hd Hc1) | exact (HR Hc2)].
Defined.

(** ** The error helpers *)

(** X11. [MakeSDLException] only makes the exception: it schedules nothing, does
    not clear or change the SDL error string, touches no template, no
    static and no native memory, and appends exactly one [Error] object,
    whose message is made of [name], [": "] and the SDL error text of that
    moment.  The message is a copy taken at the call: after any later run,
    in which the native library may have recorded other errors, the object
    still reads the message it was made with. *)
Theorem make_exception_footprint
        (name : string) (s : State) (es : list Event) :
  wf s ->
  let e := length (objects s) in
  let msg := [name; ": "; sdl_error s] in
  let s' := snd (MakeSDLException name s) in
  let s'' := state_after es s' in
  objects s' = objects s ++ [JSError msg] /\
  pending_exception s' = pending_exception s /\
  sdl_error s' = sdl_error s /\
  native s' = native s /\
  templates s' = templates s /\
  (forall k, cached_template k s' = cached_template k s) /\
  GetProperty e "message" s'' = (Ok (VString msg), s'').
Proof.
  intros Hwf e msg s' s''. unfold s'' , s'.
  rewrite MakeSDLException_eq. cbn [snd].
  repeat (split; [reflexivity |]).
  set (sa := set_objects (objects s ++ [JSError msg]) s).
  assert (Hwfa : wf sa) by (eapply layer_step_wf; [exact Hwf | apply step_error]).
  destruct (run_inv es sa Hwfa) as [_ (Ho & _ & _)].
  assert (He : objects (state_after es sa) !! length (objects s) =
               Some (JSError msg)).
  { apply Ho. unfold sa. simpl. apply lookup_snoc. }
  unfold sa, msg in He.
  unfold e, msg, GetProperty, bind, get_state, lift_option. cbv beta iota.
  rewrite He. reflexivity.
Qed.

Lemma make_exception_footprint_witness :
  wf example_state /\
  let e := length (objects example_state) in
  let msg := ["SDL_Init"; ": "; sdl_error example_state] in
  let s' := snd (MakeSDLException "SDL_Init" example_state) in
  let s'' := state_after [NativeSetError "later"] s' in
  objects s' = objects example_state ++ [JSError msg] /\
  pending_exception s' = pending_exception example_state /\
  sdl_error s' = sdl_error example_state /\
  native s' = native example_state /\
  templates s' = templates example_state /\
  (forall k, cached_template k s' = cached_template k example_state) /\
  GetProperty e "message" s'' = (Ok (VString msg), s'').
Proof.
  split; [exact wf_example_state |].
  apply (make_exception_footprint "SDL_Init" example_state
           [NativeSetError "later"] wf_example_state).
Defined.

Lemma call_getter_quiet (g : AccessorGetter) (name : string)
      (info : AccessorInfo) (s : State) :
  wf s ->
  pending_exception (snd (call_getter g name info s)) = pending_exception s.
Proof.
  intros Hwf. destruct g; unfold call_getter;
    rewrite ?GetSurfaceFlags_eq, ?GetSurfaceWidth_eq, ?GetSurfaceHeight_eq,
      ?GetSurfacePitch_eq, ?GetRectX_eq, ?GetRectY_eq, ?GetRectW_eq,
      ?GetRectH_eq, ?GetFormatBits_eq, ?GetFormatBytes_eq,
      ?GetFormatColorkey_eq, ?GetFormatAlpha_eq;
    try reflexivity.
  - rewrite GetSurfaceFormat_eq by exact Hwf.
    destruct (stored_pointer s (Holder info)) as [p|]; [ | reflexivity ].
    destruct (deref_surface (native s) p); [ | reflexivity ].
    apply wrap_post_native.
  - rewrite GetSurfaceRect_eq by exact Hwf.
    destruct (stored_pointer s (Holder info)) as [p|]; [ | reflexivity ].
    apply wrap_post_native.
Qed.

Lemma GetProperty_quiet (obj : nat) (name : string) (s : State) :
  wf s ->
  pending_exception (snd (GetProperty obj name s)) = pending_exception s.
Proof.
  intros Hwf. unfold GetProperty. run_monad.
  destruct (objects s !! obj) as [[t fs|msg]|]; simpl; try reflexivity.
  - destruct (templates s !! t) as [tm|]; simpl; try reflexivity.
    destruct (find_accessor name (accessors tm)); try reflexivity.
    now apply call_getter_quiet.
  - destruct (decide (name = "message")); reflexivity.
Qed.

Lemma exec_op_quiet (o : Op) (s : State) :
  wf s ->
  (forall name, o <> OpThrowSDLException name) ->
  pending_exception (snd (exec_op o s)) = pending_exception s.
Proof.
  intros Hwf Hno.
  destruct o as [k p|k obj|obj name|g name holder|name|name]; unfold exec_op.
  - rewrite bind_Wrap by exact Hwf. apply wrap_post_native.
  - rewrite bind_Unwrap. destruct (stored_pointer s obj); reflexivity.
  - now apply GetProperty_quiet.
  - now apply call_getter_quiet.
  - rewrite MakeSDLException_eq. reflexivity.
  - exfalso. now apply (Hno name).
Qed.

Lemma exec_ops_cons (o : Op) (os : list Op) (s : State) :
  snd (exec_ops (o :: os) s) =
  match fst (exec_op o s) with
  | Ok _ => snd (exec_ops os (snd (exec_op o s)))
  | Fault => snd (exec_op o s)
  end.
Proof.
  simpl. unfold bind at 1.
  destruct (exec_op o s) as [[v|] s1]; simpl; [ | reflexivity ].
  unfold bind. destruct (exec_ops os s1) as [[vs|] s2]; reflexivity.
Qed.

(** X12. No wrap, unwrap, property read or accessor, and not [MakeSDLException],
    ever reports an error to the host: a sequence of calls without
    [ThrowSDLException] leaves the pending exception as it was, even when a
    call faults.  And no call at all, [ThrowSDLException] included, changes
    or clears the SDL error string. *)
Theorem only_throw_schedules_an_exception (os : list Op) (s : State) :
  wf s ->
  let s' := snd (exec_ops os s) in
  sdl_error s' = sdl_error s /\
  ((forall name, OpThrowSDLException name ∉ os) ->
   pending_exception s' = pending_exception s).
Proof.
  revert s. induction os as [|o os IH]; intros s Hwf s'.
  - split; [reflexivity | intros _; reflexivity].
  - unfold s'. rewrite exec_ops_cons.
    pose proof (exec_op_step o s Hwf) as Hstep.
    pose proof (layer_step_wf _ _ Hwf Hstep) as Hwf1.
    destruct (layer_step_native _ _ Hstep) as [_ He].
    destruct (IH _ Hwf1) as [IHe IHp].
    split.
    + destruct (fst (exec_op o s)); [now rewrite IHe | exact He].
    + intros Hno.
      assert (Hq : pending_exception (snd (exec_op o s)) = pending_exception s).
      { apply exec_op_quiet; [exact Hwf |].
        intros name ->. apply (Hno name). left. }
      destruct (fst (exec_op o s)); [ | exact Hq ].
      rewrite IHp; [exact Hq |].
      intros name Hin. apply (Hno name). now right.
Qed.

Lemma only_throw_schedules_an_exception_witness :
  wf example_state /\
  let os := [OpWrap KSurface (Alloc 1); OpGetProperty 0 "format";
             OpMakeSDLException "x"; OpGetProperty 1 "alpha";
             OpUnwrap KFont 2; OpGetProperty 0 "flags"] in
  let s' := snd (exec_ops os example_state) in
  sdl_error s' = sdl_error example_state /\
  ((forall name, OpThrowSDLException name ∉ os) ->
   pending_exception s' = pending_exception example_state).
Proof.
  split; [exact wf_example_state |].
  apply (only_throw_schedules_an_exception
           [OpWrap KSurface (Alloc 1); OpGetProperty 0 "format";
            OpMakeSDLException "x"; OpGetProperty 1 "alpha";
            OpUnwrap KFont 2; OpGetProperty 0 "flags"]
           example_state wf_example_state).
Defined.
